(** * sentrykit: the Sentry adapter for Fiber, embedded and verified

    The package has two Go files.  [client.go] holds the process-wide
    initialisation and the global convenience functions; the middleware
    file holds [New], [extractHeaders], [GetHubFromContext] and the
    [...FromContext] convenience functions.

    The two collaborators of the package, the reporting SDK (sentry-go)
    and the web framework (Fiber), are not part of the package.  They are
    represented by the small piece of state this package can observe
    through them: a store of hubs (each with a client pointer and a
    scope), the list of events handed to a client, a log of the SDK calls
    that were made, and a request context with headers, locals and route
    parameters. *)

From Stdlib Require Import ZArith PrimFloat.
From stdpp Require Import gmap strings list pretty.

Local Open Scope string_scope.
Local Open Scope list_scope.
Local Open Scope Z_scope.

(** ** Go values the package handles *)

(** A non-nil value of Go's [error] interface.  The middleware tells
    [*fiber.Error] apart from every other dynamic type with a type
    assertion on the value itself, so an error that merely wraps a
    [*fiber.Error] is a different case.  (A nil [*fiber.Error] held in a
    non-nil interface value is not represented.) *)
Inductive GoError : Type :=
  | FiberError (code : Z) (message : string)
  | ErrorString (msg : string)
  | WrapError (msg : string) (inner : GoError).

(** [err.Error()] *)
Definition Error (e : GoError) : string :=
  match e with
  | FiberError _ message => message
  | ErrorString msg => msg
  | WrapError msg _ => msg
  end.

(** The value carried by a panic.  From Go 1.21 on (go.mod asks for 1.23)
    [recover()] never yields nil while a panic is in flight. *)
Inductive PanicValue : Type :=
  | PanicError (e : GoError)
  | PanicString (s : string).

(** [time.Duration]: a count of nanoseconds. *)
Definition Duration : Type := Z.
Definition Second : Duration := 1000000000.

(** [sentry.Level] is a string type. *)
Definition Level : Type := string.
Definition LevelInfo : Level := "info".

Definition StatusInternalServerError : Z := 500.

(** The values this package puts in a [map[string]interface{}]. *)
Inductive value : Type :=
  | VString (s : string)
  | VInt (n : Z)
  | VHeaders (m : gmap string string).

Record User : Type := mkUser {
  ID : string;
  Email : string;
  Username : string
}.

Record Breadcrumb : Type := mkBreadcrumb {
  bc_Message : string;
  bc_Category : string;
  bc_Data : gmap string value;
  bc_Level : Level
}.

(** ** Header filtering *)

(** The body of the closure passed to [VisitAll] in [extractHeaders]:
    one visited header is written to the map unless its name is one of
    the three sensitive ones. *)
Definition visit_header (headers : gmap string string) (kv : string * string)
  : gmap string string :=
  let keyStr := kv.1 in
  if bool_decide (keyStr ≠ "Authorization")
     && bool_decide (keyStr ≠ "Cookie")
     && bool_decide (keyStr ≠ "X-Api-Key")
  then <[keyStr := kv.2]> headers
  else headers.

(** [extractHeaders], over the sequence of (name, value) pairs that
    [Header.VisitAll] visits, in visiting order.  A name may be visited
    more than once; the map is written at each visit. *)
Definition extractHeaders (hdrs : list (string * string)) : gmap string string :=
  foldl visit_header ∅ hdrs.

(** The static denylist, as a predicate. *)
Definition denylisted (k : string) : bool :=
  bool_decide (k = "Authorization") || bool_decide (k = "Cookie")
  || bool_decide (k = "X-Api-Key").

(** The value of the last visit of [k], if [k] is visited at all. *)
Fixpoint last_value (k : string) (hdrs : list (string * string)) : option string :=
  match hdrs with
  | [] => None
  | (k', v) :: rest =>
      match last_value k rest with
      | Some v' => Some v'
      | None => if bool_decide (k' = k) then Some v else None
      end
  end.

(** ** The reporting SDK, as far as the package observes it *)

(** A scope: the per-hub data that is applied to an event when the event
    is captured. *)
Record Scope : Type := mkScope {
  tags : gmap string string;
  contexts : gmap string (gmap string value);
  user : User;
  level : Level;
  breadcrumbs : list Breadcrumb
}.

Definition empty_scope : Scope :=
  {| tags := ∅; contexts := ∅; user := mkUser "" "" ""; level := "";
     breadcrumbs := [] |}.

Inductive Payload : Type :=
  | PException (e : GoError)
  | PMessage (m : string)
  | PRecovered (v : PanicValue).

(** A captured event: what was captured, and the scope data applied to
    it at the moment of capture. *)
Record Event : Type := mkEvent {
  ev_payload : Payload;
  ev_scope : Scope
}.

Record ClientOptions : Type := mkClientOptions {
  opt_Dsn : string;
  opt_Environment : string;
  opt_Release : string;
  opt_TracesSampleRate : float;
  opt_Debug : bool;
  opt_AttachStacktrace : bool;
  opt_ServerName : string;
  opt_BeforeSend : Event → option Event
}.

(** Hubs are Go pointers; a pointer is an index in the store of hubs. *)
Definition HubPtr : Type := nat.

Record Hub : Type := mkHub {
  hub_client : option ClientOptions;
  hub_scope : Scope
}.

(** The SDK calls the package makes, in the order it makes them. *)
Inductive SdkCall : Type :=
  | CallInit (o : ClientOptions)
  | CallClone (parent child : HubPtr)
  | CallSetContext (h : HubPtr) (key : string) (data : gmap string value)
  | CallSetTag (h : HubPtr) (key val : string)
  | CallSetUser (h : HubPtr) (u : User)
  | CallSetLevel (h : HubPtr) (l : Level)
  | CallAddBreadcrumb (h : HubPtr) (b : Breadcrumb)
  | CallCaptureException (h : HubPtr) (e : GoError)
  | CallCaptureMessage (h : HubPtr) (m : string)
  | CallRecover (h : HubPtr) (v : PanicValue)
  | CallFlush (h : HubPtr) (timeout : Duration).

Record World : Type := mkWorld {
  hubs : gmap HubPtr Hub;
  next_hub : HubPtr;
  sent : list Event;
  calls : list SdkCall
}.

(** [sentry.CurrentHub()]: the process-wide hub. *)
Definition CurrentHub : HubPtr := 0%nat.

(** Before [Init]: the global hub exists, with no client bound. *)
Definition initial_world : World :=
  {| hubs := {[ CurrentHub := mkHub None empty_scope ]};
     next_hub := 1%nat; sent := []; calls := [] |}.

(** Dereferencing a hub pointer.  Go pointers never dangle; the default
    only makes the function total. *)
Definition hub_at (w : World) (h : HubPtr) : Hub :=
  default (mkHub None empty_scope) (hubs w !! h).

Definition scope_at (w : World) (h : HubPtr) : Scope := hub_scope (hub_at w h).

Definition log (c : SdkCall) (w : World) : World :=
  {| hubs := hubs w; next_hub := next_hub w; sent := sent w;
     calls := calls w ++ [c] |}.

Definition set_hub (h : HubPtr) (hb : Hub) (w : World) : World :=
  {| hubs := <[h := hb]> (hubs w); next_hub := next_hub w; sent := sent w;
     calls := calls w |}.

Definition update_scope (h : HubPtr) (f : Scope → Scope) (w : World) : World :=
  set_hub h (mkHub (hub_client (hub_at w h)) (f (scope_at w h))) w.

(** [hub.Clone()]: a new hub with the same client and a copy of the
    scope. *)
Definition Hub_Clone (h : HubPtr) (w : World) : HubPtr * World :=
  let child := next_hub w in
  (child,
   log (CallClone h child)
     {| hubs := <[child := hub_at w h]> (hubs w); next_hub := S child;
        sent := sent w; calls := calls w |}).

Definition Scope_SetContext (h : HubPtr) (key : string) (data : gmap string value)
    (w : World) : World :=
  log (CallSetContext h key data)
    (update_scope h (λ s, mkScope (tags s) (<[key := data]> (contexts s))
                            (user s) (level s) (breadcrumbs s)) w).

Definition Scope_SetTag (h : HubPtr) (key val : string) (w : World) : World :=
  log (CallSetTag h key val)
    (update_scope h (λ s, mkScope (<[key := val]> (tags s)) (contexts s)
                            (user s) (level s) (breadcrumbs s)) w).

Definition Scope_SetUser (h : HubPtr) (u : User) (w : World) : World :=
  log (CallSetUser h u)
    (update_scope h (λ s, mkScope (tags s) (contexts s) u (level s)
                            (breadcrumbs s)) w).

Definition Scope_SetLevel (h : HubPtr) (l : Level) (w : World) : World :=
  log (CallSetLevel h l)
    (update_scope h (λ s, mkScope (tags s) (contexts s) (user s) l
                            (breadcrumbs s)) w).

(** [hub.AddBreadcrumb]; the bound on the number of breadcrumbs kept is
    the SDK's and is not represented. *)
Definition Hub_AddBreadcrumb (h : HubPtr) (b : Breadcrumb) (w : World) : World :=
  log (CallAddBreadcrumb h b)
    (update_scope h (λ s, mkScope (tags s) (contexts s) (user s) (level s)
                            (breadcrumbs s ++ [b])) w).

(** An event id: the position of the event among those sent. *)
Definition EventID : Type := nat.

(** What every capture does after the call is logged: with no client
    bound the hub returns nil and nothing is sent; otherwise the scope is
    applied to the event, the event goes through [BeforeSend], and is
    handed over unless the hook dropped it. *)
Definition deliver (h : HubPtr) (p : Payload) (w : World) : option EventID * World :=
  match hub_client (hub_at w h) with
  | None => (None, w)
  | Some o =>
      match opt_BeforeSend o (mkEvent p (scope_at w h)) with
      | None => (None, w)
      | Some ev =>
          (Some (length (sent w)),
           {| hubs := hubs w; next_hub := next_hub w; sent := sent w ++ [ev];
              calls := calls w |})
      end
  end.

Definition Hub_CaptureException (h : HubPtr) (e : GoError) (w : World)
  : option EventID * World :=
  deliver h (PException e) (log (CallCaptureException h e) w).

Definition Hub_CaptureMessage (h : HubPtr) (m : string) (w : World)
  : option EventID * World :=
  deliver h (PMessage m) (log (CallCaptureMessage h m) w).

(** [hub.Recover(v)]: the SDK's recovery path; it reports the panic
    value as an event. *)
Definition Hub_Recover (h : HubPtr) (v : PanicValue) (w : World)
  : option EventID * World :=
  deliver h (PRecovered v) (log (CallRecover h v) w).

(** [hub.Flush(timeout)]: waits, for at most [timeout], until the events
    handed over are delivered.  Only the call is observable here. *)
Definition Hub_Flush (h : HubPtr) (timeout : Duration) (w : World) : World :=
  log (CallFlush h timeout) w.

(** What the package cannot see into: whether the SDK accepts a set of
    client options, and how [fmt.Sprintf("%v", x)] renders a value taken
    from request-local storage. *)
Inductive LocalValue : Type :=
  | LHub (h : HubPtr)
  | LString (s : string)
  | LInt (n : Z).

Class External : Type := {
  NewClient_error : ClientOptions → option GoError;
  Sprintf_v : LocalValue → string
}.

(** [sentry.Init]: builds a client from the options and binds it to the
    global hub, or returns the error of the client constructor. *)
Definition sentry_Init `{External} (o : ClientOptions) (w : World)
  : option GoError * World :=
  let w := log (CallInit o) w in
  match NewClient_error o with
  | Some err => (Some err, w)
  | None =>
      (None, set_hub CurrentHub (mkHub (Some o) (scope_at w CurrentHub)) w)
  end.

(** ** client.go *)

Record Config : Type := mkConfig {
  DSN : string;
  Environment : string;
  Release : string;
  TracesSampleRate : float;
  Debug : bool;
  AttachStacktrace : bool;
  ServerName : string
}.


(** The [BeforeSend] hook [Init] installs: it returns the event it was
    given. *)
Definition BeforeSend (event : Event) : option Event := Some event.

(** The [sentry.ClientOptions] literal [Init] builds, the environment
    already defaulted. *)
Definition Init_options (cfg : Config) : ClientOptions :=
  let environment :=
    if bool_decide (Environment cfg = "") then "development"
    else Environment cfg in
  {| opt_Dsn := DSN cfg; opt_Environment := environment;
     opt_Release := Release cfg;
     opt_TracesSampleRate := TracesSampleRate cfg;
     opt_Debug := Debug cfg;
     opt_AttachStacktrace := AttachStacktrace cfg;
     opt_ServerName := ServerName cfg;
     opt_BeforeSend := BeforeSend |}.

Definition Init `{External} (cfg : Config) (w : World) : option GoError * World :=
  if bool_decide (DSN cfg = "") then
    (Some (ErrorString "sentry DSN is required"), w)
  else
    let '(err, w) := sentry_Init (Init_options cfg) w in
    match err with
    | Some err =>
        (Some (WrapError ("failed to initialize Sentry: " +:+ Error err) err), w)
    | None => (None, w)
    end.

Definition Close (w : World) : World := Hub_Flush CurrentHub (2 * Second) w.

Definition CaptureException (err : GoError) (w : World) : option EventID * World :=
  Hub_CaptureException CurrentHub err w.

Definition CaptureMessage (message : string) (lvl : Level) (w : World)
  : option EventID * World :=
  let '(event, w) := Hub_CaptureMessage CurrentHub message w in
  let w := Scope_SetLevel CurrentHub lvl w in
  (event, w).

(** [RecoverWithSentry], run as a deferred call; [inflight] is what
    [recover()] returns there. *)
Definition RecoverWithSentry (inflight : option PanicValue) (w : World) : World :=
  match inflight with
  | Some err =>
      let '(_, w) := Hub_Recover CurrentHub err w in
      Hub_Flush CurrentHub (2 * Second) w
  | None => w
  end.

Definition AddBreadcrumb (message category : string) (data : gmap string value)
    (w : World) : World :=
  Hub_AddBreadcrumb CurrentHub (mkBreadcrumb message category data LevelInfo) w.

(** The next three go through [sentry.ConfigureScope], which applies
    its argument to the scope of the global hub. *)
Definition SetUser (userID email username : string) (w : World) : World :=
  Scope_SetUser CurrentHub (mkUser userID email username) w.

Definition SetTag (key val : string) (w : World) : World :=
  Scope_SetTag CurrentHub key val w.

Definition SetContext (key : string) (data : gmap string value) (w : World) : World :=
  Scope_SetContext CurrentHub key data w.

(** ** The request context of the framework *)

Record Ctx : Type := mkCtx {
  OriginalURL : string;
  Method : string;
  Path : string;
  QueryString : string;
  (** the request headers, in the order [VisitAll] visits them *)
  Headers : list (string * string);
  IP : string;
  locals : gmap string LocalValue;
  params : gmap string string
}.

(** [c.Get(key)]: the value of the first header of that name, or the
    empty string. *)
Fixpoint header_get (key : string) (hdrs : list (string * string)) : string :=
  match hdrs with
  | [] => ""
  | (k, v) :: rest => if bool_decide (k = key) then v else header_get key rest
  end.

Definition Get (c : Ctx) (key : string) : string := header_get key (Headers c).

(** [c.Locals(key)]; [None] is the nil interface value. *)
Definition Locals (c : Ctx) (key : string) : option LocalValue := locals c !! key.

(** [c.Locals(key, value)] *)
Definition Locals_set (key : string) (v : LocalValue) (c : Ctx) : Ctx :=
  {| OriginalURL := OriginalURL c; Method := Method c; Path := Path c;
     QueryString := QueryString c; Headers := Headers c; IP := IP c;
     locals := <[key := v]> (locals c); params := params c |}.

(** [c.Params(key)]: the empty string when the route has no such
    parameter. *)
Definition Params (c : Ctx) (key : string) : string := default "" (params c !! key).

(** What running the rest of the handler chain, [c.Next()], can do: it
    returns an error value (possibly nil) or panics, and meanwhile it may
    have changed the request context and used the SDK. *)
Inductive NextResult : Type :=
  | Returns (err : option GoError)
  | Panics (v : PanicValue).

Definition Handler : Type := Ctx → World → NextResult * Ctx * World.

(** How a call of the middleware ends. *)
Inductive Outcome : Type :=
  | Returned (err : option GoError)
  | Panicked (v : PanicValue).

(** ** The middleware *)

Record MiddlewareConfig : Type := mkMiddlewareConfig {
  Repanic : bool;
  WaitForDelivery : bool;
  Timeout : Duration
}.

Definition DefaultMiddlewareConfig : MiddlewareConfig :=
  {| Repanic := false; WaitForDelivery := false; Timeout := 2 * Second |}.

(** The map set as the "request" context. *)
Definition request_context (c : Ctx) : gmap string value :=
  <["url" := VString (OriginalURL c)]>
  (<["method" := VString (Method c)]>
  (<["query_string" := VString (QueryString c)]>
  (<["headers" := VHeaders (extractHeaders (Headers c))]>
  (<["ip" := VString (IP c)]>
  (<["user_agent" := VString (Get c "User-Agent")]> ∅))))).

(** The map set as the "error_details" context. *)
Definition error_details (c : Ctx) (err : GoError) (code : Z) : gmap string value :=
  <["error" := VString (Error err)]>
  (<["path" := VString (Path c)]>
  (<["method" := VString (Method c)]>
  (<["status" := VInt code]>
  (<["ip" := VString (IP c)]>
  (<["user_agent" := VString (Get c "User-Agent")]> ∅))))).

(** The status the middleware gives an error: 500, or the code of the
    error when the error value is a [*fiber.Error]. *)
Definition status_code (err : GoError) : Z :=
  match err with
  | FiberError code _ => code
  | _ => StatusInternalServerError
  end.

(** The handler up to the [defer]: the hub of the request is made and
    filled in, and stored in the locals. *)
Definition New_entry `{External} (c : Ctx) (w : World) : HubPtr * Ctx * World :=
  let '(hub, w) := Hub_Clone CurrentHub w in
  let w := Scope_SetContext hub "request" (request_context c) w in
  let w := Scope_SetTag hub "path" (Path c) w in
  let w := Scope_SetTag hub "method" (Method c) w in
  let w :=
    match Locals c "user_id" with
    | Some userID => Scope_SetUser hub (mkUser (Sprintf_v userID) "" "") w
    | None => w
    end in
  let tenantID := Params c "tenantId" in
  let w :=
    if bool_decide (tenantID ≠ "") then Scope_SetTag hub "tenant_id" tenantID w
    else w in
  let c := Locals_set "sentry_hub" (LHub hub) c in
  (hub, c, w).

(** The deferred function, when [recover()] yields [err]. *)
Definition New_recover (cfg : MiddlewareConfig) (hub : HubPtr) (err : PanicValue)
    (c : Ctx) (w : World) : Outcome * Ctx * World :=
  let '(_, w) := Hub_Recover hub err w in
  let w := if WaitForDelivery cfg then Hub_Flush hub (Timeout cfg) w else w in
  if Repanic cfg then (Panicked err, c, w)
  else (Returned None, c, w).

(** The handler after [c.Next()] has returned [err]. *)
Definition New_exit (cfg : MiddlewareConfig) (hub : HubPtr) (err : option GoError)
    (c : Ctx) (w : World) : Outcome * Ctx * World :=
  let w :=
    match err with
    | Some e =>
        let code := status_code e in
        if bool_decide (500 ≤ code) then
          let '(_, w) := Hub_CaptureException hub e w in
          Scope_SetContext hub "error_details" (error_details c e code) w
        else w
    | None => w
    end in
  let w := if WaitForDelivery cfg then Hub_Flush hub (Timeout cfg) w else w in
  (Returned err, c, w).

(** The first lines of [New]: the configuration in force. *)
Definition New_config (config : list MiddlewareConfig) : MiddlewareConfig :=
  match config with
  | cfg0 :: _ => cfg0
  | [] => DefaultMiddlewareConfig
  end.

(** [New(config...)], applied to the rest of the chain and a request. *)
Definition New `{External} (config : list MiddlewareConfig) (next : Handler)
    (c : Ctx) (w : World) : Outcome * Ctx * World :=
  let cfg := New_config config in
  let '(hub, c, w) := New_entry c w in
  match next c w with
  | (Panics v, c, w) => New_recover cfg hub v c w
  | (Returns err, c, w) => New_exit cfg hub err c w
  end.

(** ** The functions that take the hub from the request *)

Definition GetHubFromContext (c : Ctx) : HubPtr :=
  match Locals c "sentry_hub" with
  | Some (LHub hub) => hub
  | _ => CurrentHub
  end.

Definition CaptureExceptionFromContext (c : Ctx) (err : GoError) (w : World)
  : option EventID * World :=
  let hub := GetHubFromContext c in
  Hub_CaptureException hub err w.

Definition CaptureMessageFromContext (c : Ctx) (message : string) (lvl : Level)
    (w : World) : option EventID * World :=
  let hub := GetHubFromContext c in
  let w := Scope_SetLevel hub lvl w in
  Hub_CaptureMessage hub message w.

Definition AddBreadcrumbFromContext (c : Ctx) (message category : string)
    (data : gmap string value) (w : World) : World :=
  let hub := GetHubFromContext c in
  Hub_AddBreadcrumb hub (mkBreadcrumb message category data LevelInfo) w.

Definition SetUserFromContext (c : Ctx) (userID email username : string)
    (w : World) : World :=
  let hub := GetHubFromContext c in
  Scope_SetUser hub (mkUser userID email username) w.

Definition SetTagFromContext (c : Ctx) (key val : string) (w : World) : World :=
  let hub := GetHubFromContext c in
  Scope_SetTag hub key val w.

Definition SetContextFromContext (c : Ctx) (key : string) (data : gmap string value)
    (w : World) : World :=
  let hub := GetHubFromContext c in
  Scope_SetContext hub key data w.

(** ** Reading the log *)

(** The calls that report something: the two captures and the recovery
    path. *)
Definition is_capture (c : SdkCall) : bool :=
  match c with
  | CallCaptureException _ _ | CallCaptureMessage _ _ | CallRecover _ _ => true
  | _ => false
  end.

Definition is_flush (c : SdkCall) : bool :=
  match c with
  | CallFlush _ _ => true
  | _ => false
  end.

(** The hub the middleware makes for a request that starts in [w]. *)
Definition request_hub (w : World) : HubPtr := next_hub w.

(** One request through the middleware, observed: how the rest of the
    chain ended, how the middleware ended, the SDK calls the middleware
    itself made before and after the rest of the chain ran, the events
    sent after it, and the scope of the request's hub when the rest of
    the chain had finished and at the end. *)
Record Run : Type := mkRun {
  run_hub : HubPtr;
  run_result : NextResult;
  run_outcome : Outcome;
  run_ctx_at_exit : Ctx;
  run_entry_calls : list SdkCall;
  run_exit_calls : list SdkCall;
  run_exit_sent : list Event;
  run_scope_at_exit : Scope;
  run_scope_final : Scope
}.

Definition observe `{External} (config : list MiddlewareConfig) (next : Handler)
    (c : Ctx) (w : World) : Run :=
  let '(hub, c1, w1) := New_entry c w in
  let '(res, c2, w2) := next c1 w1 in
  let '(out, _, w3) := New config next c w in
  {| run_hub := hub;
     run_result := res;
     run_outcome := out;
     run_ctx_at_exit := c2;
     run_entry_calls := drop (length (calls w)) (calls w1);
     run_exit_calls := drop (length (calls w2)) (calls w3);
     run_exit_sent := drop (length (sent w2)) (sent w3);
     run_scope_at_exit := scope_at w2 hub;
     run_scope_final := scope_at w3 hub |}.

(** The calls of the middleware itself during one request. *)
Definition middleware_calls (r : Run) : list SdkCall :=
  run_entry_calls r ++ run_exit_calls r.

(** The flush the middleware asks for when [WaitForDelivery] is set. *)
Definition flush_calls (cfg : MiddlewareConfig) (hub : HubPtr) : list SdkCall :=
  if WaitForDelivery cfg then [CallFlush hub (Timeout cfg)] else [].

(** What [New_exit] adds to the log besides the flush. *)
Definition capture_calls (hub : HubPtr) (err : option GoError) (c : Ctx)
  : list SdkCall :=
  match err with
  | Some e =>
      if bool_decide (500 ≤ status_code e) then
        [CallCaptureException hub e;
         CallSetContext hub "error_details" (error_details c e (status_code e))]
      else []
  | None => []
  end.

(** The rest of the chain, run on the request as the entry phase left
    it. *)
Definition rest_of_chain `{External} (next : Handler) (c : Ctx) (w : World)
  : NextResult * Ctx * World :=
  next (New_entry c w).1.2 (New_entry c w).2.

(** [New] after the entry phase, by the way the rest of the chain ended. *)
Definition New_final `{External} (config : list MiddlewareConfig) (next : Handler)
    (c : Ctx) (w : World) : Outcome * Ctx * World :=
  let '(res, c2, w2) := rest_of_chain next c w in
  match res with
  | Panics v => New_recover (New_config config) (request_hub w) v c2 w2
  | Returns err => New_exit (New_config config) (request_hub w) err c2 w2
  end.

(** Setting something on the scope of one hub leaves every other hub as
    it was, never changes which client a hub has, sends nothing, and adds
    one call to the log. *)
Record scope_op (op : World → World) (h : HubPtr) (f : Scope → Scope)
    (k : SdkCall) : Prop := {
  op_scope : ∀ w, scope_at (op w) h = f (scope_at w h);
  op_frame : ∀ w h', h ≠ h' → hub_at (op w) h' = hub_at w h';
  op_client : ∀ w h', hub_client (hub_at (op w) h') = hub_client (hub_at w h');
  op_sent : ∀ w, sent (op w) = sent w;
  op_calls : ∀ w, calls (op w) = calls w ++ [k];
  op_next_hub : ∀ w, next_hub (op w) = next_hub w
}.


(** ** A concrete setting *)

(** An SDK that rejects one malformed DSN, and the rendering of strings
    and integers by [%v]. *)
Definition sample_external : External :=
  {| NewClient_error := λ o,
       if bool_decide (opt_Dsn o = "not-a-dsn")
       then Some (ErrorString "[Sentry] DsnParseError: invalid scheme")
       else None;
     Sprintf_v := λ v,
       match v with
       | LString s => s
       | LInt n => pretty n
       | LHub _ => "0xc000010000"
       end |}.

Definition sample_config : Config :=
  {| DSN := "https://key@sentry.example/1"; Environment := "";
     Release := "v1.0.0"; TracesSampleRate := 1%float; Debug := false;
     AttachStacktrace := true; ServerName := "" |}.

(** The process after a successful [Init]. *)
Definition sample_world : World :=
  (@Init sample_external sample_config initial_world).2.

Definition sample_ctx : Ctx :=
  {| OriginalURL := "/tenants/t1/orders?id=7"; Method := "GET";
     Path := "/tenants/t1/orders"; QueryString := "id=7";
     Headers := [("Host", "shop.example"); ("User-Agent", "curl/8.0");
                 ("Authorization", "Bearer secret"); ("Cookie", "sid=1");
                 ("X-Api-Key", "k-123"); ("Accept", "text/html");
                 ("Accept", "application/json")];
     IP := "10.0.0.7";
     locals := {[ "user_id" := LString "u-42" ]};
     params := {[ "tenantId" := "t1" ]} |}.

(** Three ways the rest of the chain can end. *)
Definition next_returns (err : option GoError) : Handler :=
  λ c w, (Returns err, c, w).

Definition next_panics (v : PanicValue) : Handler :=
  λ c w, (Panics v, c, w).

(** A handler that tags its request and then fails. *)
Definition next_tags_then_fails (err : GoError) : Handler :=
  λ c w, (Returns (Some err), c, SetTagFromContext c "step" "checkout" w).

Definition wait_config : MiddlewareConfig :=
  {| Repanic := false; WaitForDelivery := true; Timeout := 5 * Second |}.

Definition repanic_config : MiddlewareConfig :=
  {| Repanic := true; WaitForDelivery := true; Timeout := 5 * Second |}.

(** ** Several requests in flight *)

Definition RequestId : Type := nat.

(** What the requests in flight do, one action at a time: a request
    reaches the middleware and goes through its entry phase, or the
    handler of a request that is past the entry phase calls
    [SetTagFromContext] on its own request context. *)
Inductive Action : Type :=
  | Enters (r : RequestId) (c : Ctx)
  | SetsTag (r : RequestId) (key val : string).

Record System : Type := mkSystem {
  sys_world : World;
  sys_ctx : gmap RequestId Ctx
}.

Definition start (w : World) : System := mkSystem w ∅.

Definition step `{External} (s : System) (a : Action) : System :=
  match a with
  | Enters r c =>
      let '(_, c, w) := New_entry c (sys_world s) in
      mkSystem w (<[r := c]> (sys_ctx s))
  | SetsTag r key val =>
      match sys_ctx s !! r with
      | Some c => mkSystem (SetTagFromContext c key val (sys_world s)) (sys_ctx s)
      | None => s
      end
  end.

(** Any interleaving of the actions of the requests is a schedule. *)
Definition run_schedule `{External} (s : System) (sched : list Action) : System :=
  foldl step s sched.

Definition of_request (r : RequestId) (a : Action) : bool :=
  match a with
  | Enters r' _ | SetsTag r' _ _ => bool_decide (r' = r)
  end.

(** The actions of one request, in their order. *)
Definition own_actions (r : RequestId) (sched : list Action) : list Action :=
  filter (λ a, of_request r a = true) sched.

(** The scope a request sees: that of the hub its context resolves to. *)
Definition request_scope (s : System) (r : RequestId) : option Scope :=
  c ← sys_ctx s !! r; Some (scope_at (sys_world s) (GetHubFromContext c)).

(** What holds of the requests in flight at every moment: the global hub
    is not a hub still to be made and its scope is [g]; the hub of every
    request is a hub already made, other than the global one; and two
    requests have two hubs. *)
Definition well_formed (g : Scope) (s : System) : Prop :=
  (0 < next_hub (sys_world s))%nat ∧
  scope_at (sys_world s) CurrentHub = g ∧
  (∀ r c, sys_ctx s !! r = Some c →
     (0 < GetHubFromContext c < next_hub (sys_world s))%nat) ∧
  (∀ r1 r2 c1 c2, r1 ≠ r2 → sys_ctx s !! r1 = Some c1 → sys_ctx s !! r2 = Some c2 →
     GetHubFromContext c1 ≠ GetHubFromContext c2).

(** Two requests that set the same tag, interleaved. *)
Definition two_requests : list Action :=
  [Enters 1%nat sample_ctx; Enters 2%nat sample_ctx;
   SetsTag 1%nat "color" "red"; SetsTag 2%nat "color" "blue";
   SetsTag 1%nat "size" "xl"].

(** ** The two scope functions of client.go *)



(** The names the headers of a request bear. *)
Definition header_names (hdrs : list (string * string)) : list string := hdrs.*1.

(** A handler that leaves a breadcrumb and fails with a wrapped 404. *)
Definition next_wrapped_404 : Handler :=
  λ c w,
    (Returns (Some (WrapError "load order: Not Found" (FiberError 404 "Not Found"))),
     c, AddBreadcrumbFromContext c "loading order" "order" ∅ w).

(** * Properties *)

(** ** Header filtering *)

Lemma visit_header_lookup (m : gmap string string) (k' v k : string) :
  visit_header m (k', v) !! k =
  if bool_decide (k' = k) && negb (denylisted k) then Some v else m !! k.
Proof.
  unfold visit_header, denylisted; simpl.
  destruct (decide (k' = k)) as [->|Hne].
  - rewrite (bool_decide_eq_true_2 (k = k)) by done; simpl.
    repeat case_bool_decide; simpl; try rewrite lookup_insert_eq;
      try done; congruence.
  - rewrite (bool_decide_eq_false_2 (k' = k)) by done; simpl.
    repeat case_bool_decide; simpl; try rewrite lookup_insert_ne by done; done.
Qed.

Lemma foldl_visit_header_lookup (hdrs : list (string * string))
    (m : gmap string string) (k : string) :
  foldl visit_header m hdrs !! k =
  if denylisted k then m !! k
  else match last_value k hdrs with Some v => Some v | None => m !! k end.
Proof.
  revert m; induction hdrs as [|[k' v] rest IH]; intros m; simpl.
  - by destruct (denylisted k).
  - rewrite IH, visit_header_lookup.
    destruct (denylisted k); simpl.
    + by rewrite andb_false_r.
    + rewrite andb_true_r. destruct (last_value k rest); [done|].
      by case_bool_decide.
Qed.

Lemma extractHeaders_lookup (hdrs : list (string * string)) (k : string) :
  extractHeaders hdrs !! k = if denylisted k then None else last_value k hdrs.
Proof.
  unfold extractHeaders. rewrite foldl_visit_header_lookup, lookup_empty.
  destruct (denylisted k); [done|]. by destruct (last_value k hdrs).
Qed.

Lemma last_value_elem (k v : string) (hdrs : list (string * string)) :
  last_value k hdrs = Some v → (k, v) ∈ hdrs.
Proof.
  induction hdrs as [|[k' v'] rest IH]; simpl; [done|].
  destruct (last_value k rest) as [v0|].
  - intros [= ->]. right. by apply IH.
  - case_bool_decide; [|done]. intros [= ->]. subst. left.
Qed.

Lemma last_value_None (k : string) (hdrs : list (string * string)) :
  last_value k hdrs = None ↔ ∀ v, (k, v) ∉ hdrs.
Proof.
  induction hdrs as [|[k' v'] rest IH]; simpl.
  - split; [|done]. intros _ v Hin. by apply elem_of_nil in Hin.
  - destruct (last_value k rest) as [v0|] eqn:E.
    + split; [done|]. intros Hno. exfalso. apply (Hno v0). right.
      by apply last_value_elem.
    + case_bool_decide as Hk.
      * split; [done|]. intros Hno. exfalso. apply (Hno v'). subst. left.
      * split; [|done]. intros _ v Hin. apply elem_of_cons in Hin as [[= ? ?]|Hin].
        -- congruence.
        -- by apply (proj1 IH eq_refl v).
Qed.

(** A name that is visited with one value only ends with that value. *)
Lemma last_value_unique (k v : string) (hdrs : list (string * string)) :
  (k, v) ∈ hdrs → (∀ v', (k, v') ∈ hdrs → v' = v) → last_value k hdrs = Some v.
Proof.
  intros Hin Huniq. destruct (last_value k hdrs) as [v0|] eqn:E.
  - f_equal. apply Huniq. by apply last_value_elem.
  - exfalso. by apply (proj1 (last_value_None k hdrs) E v).
Qed.

(** ** The SDK operations: what each changes and what it leaves alone *)

Lemma hub_at_set_hub_eq (h : HubPtr) (hb : Hub) (w : World) :
  hub_at (set_hub h hb w) h = hb.
Proof. unfold hub_at, set_hub; simpl. by rewrite lookup_insert_eq. Qed.

Lemma hub_at_set_hub_ne (h h' : HubPtr) (hb : Hub) (w : World) :
  h ≠ h' → hub_at (set_hub h hb w) h' = hub_at w h'.
Proof. intros ?. unfold hub_at, set_hub; simpl. by rewrite lookup_insert_ne. Qed.

Lemma scope_at_update_eq (h : HubPtr) (f : Scope → Scope) (w : World) :
  scope_at (update_scope h f w) h = f (scope_at w h).
Proof. unfold scope_at, update_scope. by rewrite hub_at_set_hub_eq. Qed.

Lemma hub_at_update_ne (h h' : HubPtr) (f : Scope → Scope) (w : World) :
  h ≠ h' → hub_at (update_scope h f w) h' = hub_at w h'.
Proof. intros ?. unfold update_scope. by rewrite hub_at_set_hub_ne. Qed.

Lemma client_update (h h' : HubPtr) (f : Scope → Scope) (w : World) :
  hub_client (hub_at (update_scope h f w) h') = hub_client (hub_at w h').
Proof.
  destruct (decide (h = h')) as [->|?].
  - unfold update_scope. by rewrite hub_at_set_hub_eq.
  - by rewrite hub_at_update_ne.
Qed.

Lemma hub_at_log (c : SdkCall) (w : World) (h : HubPtr) :
  hub_at (log c w) h = hub_at w h.
Proof. done. Qed.

Lemma deliver_hubs (h : HubPtr) (p : Payload) (w : World) :
  hubs (deliver h p w).2 = hubs w.
Proof.
  unfold deliver. destruct (hub_client _); [|done].
  by destruct (opt_BeforeSend _ _).
Qed.

Lemma deliver_calls (h : HubPtr) (p : Payload) (w : World) :
  calls (deliver h p w).2 = calls w.
Proof.
  unfold deliver. destruct (hub_client _); [|done].
  by destruct (opt_BeforeSend _ _).
Qed.

Lemma deliver_next_hub (h : HubPtr) (p : Payload) (w : World) :
  next_hub (deliver h p w).2 = next_hub w.
Proof.
  unfold deliver. destruct (hub_client _); [|done].
  by destruct (opt_BeforeSend _ _).
Qed.

Lemma hub_at_deliver (h h' : HubPtr) (p : Payload) (w : World) :
  hub_at (deliver h p w).2 h' = hub_at w h'.
Proof. unfold hub_at. by rewrite deliver_hubs. Qed.


(** With a client whose hook is the one [Init] installs, a capture sends
    exactly the event made of the payload and the current scope. *)
Lemma deliver_client (h : HubPtr) (p : Payload) (w : World) (o : ClientOptions) :
  hub_client (hub_at w h) = Some o → opt_BeforeSend o = BeforeSend →
  sent (deliver h p w).2 = sent w ++ [mkEvent p (scope_at w h)].
Proof. intros Hc Hb. unfold deliver. by rewrite Hc, Hb. Qed.

Lemma deliver_sent_cases (h : HubPtr) (p : Payload) (w : World) :
  sent (deliver h p w).2 = sent w ∨
  ∃ ev, sent (deliver h p w).2 = sent w ++ [ev] ∧
        ∃ o, hub_client (hub_at w h) = Some o ∧
             opt_BeforeSend o (mkEvent p (scope_at w h)) = Some ev.
Proof.
  unfold deliver. destruct (hub_client _) as [o|] eqn:Hc; [|by left].
  destruct (opt_BeforeSend _ _) as [ev|] eqn:Hb; [|by left].
  right. exists ev. split; [done|]. by exists o.
Qed.

Lemma log_update_scope_op (h : HubPtr) (f : Scope → Scope) (k : SdkCall) :
  scope_op (λ w, log k (update_scope h f w)) h f k.
Proof.
  split; intros; try done.
  - unfold scope_at. rewrite hub_at_log. apply scope_at_update_eq.
  - rewrite hub_at_log. by apply hub_at_update_ne.
  - rewrite hub_at_log. apply client_update.
Qed.

Lemma Scope_SetContext_op (h : HubPtr) (key : string) (data : gmap string value) :
  scope_op (Scope_SetContext h key data) h
    (λ s, mkScope (tags s) (<[key := data]> (contexts s)) (user s) (level s)
            (breadcrumbs s))
    (CallSetContext h key data).
Proof. apply log_update_scope_op. Qed.

Lemma Scope_SetTag_op (h : HubPtr) (key val : string) :
  scope_op (Scope_SetTag h key val) h
    (λ s, mkScope (<[key := val]> (tags s)) (contexts s) (user s) (level s)
            (breadcrumbs s))
    (CallSetTag h key val).
Proof. apply log_update_scope_op. Qed.

Lemma Scope_SetUser_op (h : HubPtr) (u : User) :
  scope_op (Scope_SetUser h u) h
    (λ s, mkScope (tags s) (contexts s) u (level s) (breadcrumbs s))
    (CallSetUser h u).
Proof. apply log_update_scope_op. Qed.

Lemma Scope_SetLevel_op (h : HubPtr) (l : Level) :
  scope_op (Scope_SetLevel h l) h
    (λ s, mkScope (tags s) (contexts s) (user s) l (breadcrumbs s))
    (CallSetLevel h l).
Proof. apply log_update_scope_op. Qed.

Lemma Hub_AddBreadcrumb_op (h : HubPtr) (b : Breadcrumb) :
  scope_op (Hub_AddBreadcrumb h b) h
    (λ s, mkScope (tags s) (contexts s) (user s) (level s) (breadcrumbs s ++ [b]))
    (CallAddBreadcrumb h b).
Proof. apply log_update_scope_op. Qed.

(** [hub.Clone()] *)
Lemma Hub_Clone_new (h : HubPtr) (w : World) :
  hub_at (Hub_Clone h w).2 (next_hub w) = hub_at w h.
Proof. unfold Hub_Clone, hub_at at 1; simpl. by rewrite lookup_insert_eq. Qed.

Lemma Hub_Clone_frame (h h' : HubPtr) (w : World) :
  h' ≠ next_hub w → hub_at (Hub_Clone h w).2 h' = hub_at w h'.
Proof.
  intros ?. unfold Hub_Clone, hub_at at 1; simpl. by rewrite lookup_insert_ne.
Qed.

(** Rewriting with the facts above, innermost operation last. *)
Ltac scope_ops :=
  repeat first
    [ rewrite (op_scope _ _ _ _ (Scope_SetContext_op _ _ _))
    | rewrite (op_scope _ _ _ _ (Scope_SetTag_op _ _ _))
    | rewrite (op_scope _ _ _ _ (Scope_SetUser_op _ _))
    | rewrite (op_scope _ _ _ _ (Scope_SetLevel_op _ _))
    | rewrite (op_scope _ _ _ _ (Hub_AddBreadcrumb_op _ _))
    | rewrite (op_frame _ _ _ _ (Scope_SetContext_op _ _ _)) by done
    | rewrite (op_frame _ _ _ _ (Scope_SetTag_op _ _ _)) by done
    | rewrite (op_frame _ _ _ _ (Scope_SetUser_op _ _)) by done
    | rewrite (op_frame _ _ _ _ (Scope_SetLevel_op _ _)) by done
    | rewrite (op_frame _ _ _ _ (Hub_AddBreadcrumb_op _ _)) by done
    | rewrite (op_client _ _ _ _ (Scope_SetContext_op _ _ _))
    | rewrite (op_client _ _ _ _ (Scope_SetTag_op _ _ _))
    | rewrite (op_client _ _ _ _ (Scope_SetUser_op _ _))
    | rewrite (op_client _ _ _ _ (Scope_SetLevel_op _ _))
    | rewrite (op_client _ _ _ _ (Hub_AddBreadcrumb_op _ _))
    | rewrite (op_sent _ _ _ _ (Scope_SetContext_op _ _ _))
    | rewrite (op_sent _ _ _ _ (Scope_SetTag_op _ _ _))
    | rewrite (op_sent _ _ _ _ (Scope_SetUser_op _ _))
    | rewrite (op_sent _ _ _ _ (Scope_SetLevel_op _ _))
    | rewrite (op_sent _ _ _ _ (Hub_AddBreadcrumb_op _ _))
    | rewrite (op_calls _ _ _ _ (Scope_SetContext_op _ _ _))
    | rewrite (op_calls _ _ _ _ (Scope_SetTag_op _ _ _))
    | rewrite (op_calls _ _ _ _ (Scope_SetUser_op _ _))
    | rewrite (op_calls _ _ _ _ (Scope_SetLevel_op _ _))
    | rewrite (op_calls _ _ _ _ (Hub_AddBreadcrumb_op _ _))
    | rewrite (op_next_hub _ _ _ _ (Scope_SetContext_op _ _ _))
    | rewrite (op_next_hub _ _ _ _ (Scope_SetTag_op _ _ _))
    | rewrite (op_next_hub _ _ _ _ (Scope_SetUser_op _ _))
    | rewrite (op_next_hub _ _ _ _ (Scope_SetLevel_op _ _))
    | rewrite (op_next_hub _ _ _ _ (Hub_AddBreadcrumb_op _ _)) ].

(** ** The entry phase of the middleware *)

Section entry.
Context `{External}.

Lemma New_entry_hub (c : Ctx) (w : World) :
  (New_entry c w).1.1 = request_hub w.
Proof. done. Qed.

Lemma New_entry_ctx (c : Ctx) (w : World) :
  (New_entry c w).1.2 = Locals_set "sentry_hub" (LHub (request_hub w)) c.
Proof. done. Qed.

Ltac entry_cases c :=
  unfold New_entry, request_hub in *;
  destruct (Locals c "user_id"); case_bool_decide;
  cbn [fst snd Hub_Clone]; scope_ops.

Lemma New_entry_next_hub (c : Ctx) (w : World) :
  next_hub (New_entry c w).2 = S (next_hub w).
Proof. entry_cases c; done. Qed.

(** Every hub that existed before is left as it was. *)
Lemma New_entry_frame (c : Ctx) (w : World) (h : HubPtr) :
  h ≠ request_hub w → hub_at (New_entry c w).2 h = hub_at w h.
Proof.
  intros Hne. entry_cases c; exact (Hub_Clone_frame CurrentHub h w Hne).
Qed.

Lemma New_entry_client (c : Ctx) (w : World) :
  hub_client (hub_at (New_entry c w).2 (request_hub w)) =
  hub_client (hub_at w CurrentHub).
Proof.
  entry_cases c; exact (f_equal hub_client (Hub_Clone_new CurrentHub w)).
Qed.

(** The contexts of the new hub: those of the global hub, with the
    "request" context set. *)
Lemma New_entry_contexts (c : Ctx) (w : World) :
  contexts (scope_at (New_entry c w).2 (request_hub w)) =
  <["request" := request_context c]> (contexts (scope_at w CurrentHub)).
Proof.
  entry_cases c; cbn [contexts]; f_equal;
    exact (f_equal (λ hb, contexts (hub_scope hb)) (Hub_Clone_new CurrentHub w)).
Qed.

(** The entry phase reports nothing and waits for nothing. *)
Lemma New_entry_calls (c : Ctx) (w : World) :
  ∃ l, calls (New_entry c w).2 = calls w ++ l ∧
       Forall (λ k, is_capture k = false ∧ is_flush k = false) l.
Proof.
  entry_cases c; cbn [calls log]; rewrite <- ?app_assoc;
    (eexists; split; [reflexivity|]); repeat constructor.
Qed.

Lemma New_entry_sent (c : Ctx) (w : World) :
  sent (New_entry c w).2 = sent w.
Proof. entry_cases c; done. Qed.
End entry.

(** ** The two ways out of the middleware *)

Lemma New_recover_outcome (cfg : MiddlewareConfig) (hub : HubPtr) (v : PanicValue)
    (c : Ctx) (w : World) :
  (New_recover cfg hub v c w).1 =
  (if Repanic cfg then Panicked v else Returned None, c).
Proof.
  unfold New_recover. destruct (Hub_Recover hub v w). by destruct (Repanic cfg).
Qed.

Lemma New_recover_calls (cfg : MiddlewareConfig) (hub : HubPtr) (v : PanicValue)
    (c : Ctx) (w : World) :
  calls (New_recover cfg hub v c w).2 =
  calls w ++ CallRecover hub v :: flush_calls cfg hub.
Proof.
  unfold New_recover, flush_calls.
  pose proof (deliver_calls hub (PRecovered v) (log (CallRecover hub v) w)) as Hc.
  unfold Hub_Recover. destruct (deliver _ _ _) as [id w']. simpl in Hc.
  destruct (Repanic cfg), (WaitForDelivery cfg); simpl; rewrite Hc; simpl;
    by rewrite <- ?app_assoc.
Qed.

Lemma New_recover_hub_at (cfg : MiddlewareConfig) (hub : HubPtr) (v : PanicValue)
    (c : Ctx) (w : World) (h : HubPtr) :
  hub_at (New_recover cfg hub v c w).2 h = hub_at w h.
Proof.
  unfold New_recover.
  pose proof (hub_at_deliver hub h (PRecovered v) (log (CallRecover hub v) w)) as Hh.
  unfold Hub_Recover. destruct (deliver _ _ _) as [id w']. simpl in Hh.
  by destruct (Repanic cfg), (WaitForDelivery cfg).
Qed.

Lemma New_exit_outcome (cfg : MiddlewareConfig) (hub : HubPtr)
    (err : option GoError) (c : Ctx) (w : World) :
  (New_exit cfg hub err c w).1 = (Returned err, c).
Proof. done. Qed.

Lemma New_exit_calls (cfg : MiddlewareConfig) (hub : HubPtr)
    (err : option GoError) (c : Ctx) (w : World) :
  calls (New_exit cfg hub err c w).2 =
  calls w ++ capture_calls hub err c ++ flush_calls cfg hub.
Proof.
  unfold New_exit, capture_calls, flush_calls. cbn [snd].
  destruct err as [e|].
  - case_bool_decide.
    + pose proof (deliver_calls hub (PException e)
                    (log (CallCaptureException hub e) w)) as Hc.
      unfold Hub_CaptureException. destruct (deliver _ _ _) as [id w'].
      simpl in Hc. destruct (WaitForDelivery cfg); cbn [calls log Hub_Flush];
        scope_ops; rewrite Hc; simpl; by rewrite <- ?app_assoc.
    + destruct (WaitForDelivery cfg); simpl; by rewrite ?app_nil_r.
  - destruct (WaitForDelivery cfg); simpl; by rewrite ?app_nil_r.
Qed.

(** Without a 5xx error the exit sends nothing and changes no scope. *)
Lemma New_exit_quiet (cfg : MiddlewareConfig) (hub : HubPtr)
    (err : option GoError) (c : Ctx) (w : World) :
  capture_calls hub err c = [] →
  sent (New_exit cfg hub err c w).2 = sent w ∧
  ∀ h, hub_at (New_exit cfg hub err c w).2 h = hub_at w h.
Proof.
  unfold New_exit, capture_calls. cbn [snd]. destruct err as [e|].
  - case_bool_decide; [done|]. intros _. by destruct (WaitForDelivery cfg).
  - intros _. by destruct (WaitForDelivery cfg).
Qed.

(** With a 5xx error: the event is made from the scope as the rest of
    the chain left it, and only then is "error_details" set. *)
Lemma New_exit_5xx (cfg : MiddlewareConfig) (hub : HubPtr) (e : GoError)
    (c : Ctx) (w : World) :
  500 ≤ status_code e →
  sent (New_exit cfg hub (Some e) c w).2 =
    sent (deliver hub (PException e) (log (CallCaptureException hub e) w)).2 ∧
  scope_at (New_exit cfg hub (Some e) c w).2 hub =
    mkScope (tags (scope_at w hub))
      (<["error_details" := error_details c e (status_code e)]>
         (contexts (scope_at w hub)))
      (user (scope_at w hub)) (level (scope_at w hub))
      (breadcrumbs (scope_at w hub)).
Proof.
  intros Hcode. unfold New_exit. cbn [snd].
  rewrite bool_decide_eq_true_2 by done.
  pose proof (hub_at_deliver hub hub (PException e)
                (log (CallCaptureException hub e) w)) as Hh.
  unfold Hub_CaptureException. destruct (deliver _ _ _) as [id w'].
  cbn [snd] in *.
  destruct (WaitForDelivery cfg); unfold Hub_Flush;
    (split; [cbn [sent log]; by scope_ops|]);
    unfold scope_at at 1; rewrite ?hub_at_log; fold (scope_at);
    change (hub_scope (hub_at ?w ?h)) with (scope_at w h);
    scope_ops; unfold scope_at; by rewrite Hh.
Qed.

(** ** One request through the middleware *)

Section request.
Context `{External}.
Variables (config : list MiddlewareConfig) (next : Handler).
Variables (c : Ctx) (w : World).

Lemma New_eq : New config next c w = New_final config next c w.
Proof.
  unfold New, New_final, rest_of_chain.
  pose proof (New_entry_hub c w) as Hh.
  destruct (New_entry c w) as [[h0 c0] w0]. simpl in Hh. subst h0. simpl.
  by destruct (next c0 w0) as [[[err|v] c'] w'].
Qed.

Lemma observe_eq :
  observe config next c w =
  {| run_hub := request_hub w;
     run_result := (rest_of_chain next c w).1.1;
     run_outcome := (New_final config next c w).1.1;
     run_ctx_at_exit := (rest_of_chain next c w).1.2;
     run_entry_calls := drop (length (calls w)) (calls (New_entry c w).2);
     run_exit_calls :=
       drop (length (calls (rest_of_chain next c w).2))
         (calls (New_final config next c w).2);
     run_exit_sent :=
       drop (length (sent (rest_of_chain next c w).2))
         (sent (New_final config next c w).2);
     run_scope_at_exit := scope_at (rest_of_chain next c w).2 (request_hub w);
     run_scope_final := scope_at (New_final config next c w).2 (request_hub w) |}.
Proof.
  unfold observe. rewrite New_eq. unfold New_final, rest_of_chain.
  pose proof (New_entry_hub c w) as Hh.
  destruct (New_entry c w) as [[h0 c0] w0]. simpl in Hh. subst h0. simpl.
  destruct (next c0 w0) as [[r c'] w']. simpl.
  by destruct (match r with Panics _ => _ | Returns _ => _ end) as [[? ?] ?].
Qed.

Lemma run_result_eq :
  run_result (observe config next c w) = (rest_of_chain next c w).1.1.
Proof. by rewrite observe_eq. Qed.

Lemma run_hub_eq : run_hub (observe config next c w) = request_hub w.
Proof. by rewrite observe_eq. Qed.

(** How the middleware ends, by how the rest of the chain ended. *)
Lemma run_outcome_eq :
  run_outcome (observe config next c w) =
  match run_result (observe config next c w) with
  | Panics v => if Repanic (New_config config) then Panicked v else Returned None
  | Returns err => Returned err
  end.
Proof.
  rewrite observe_eq. cbn [run_outcome run_result]. unfold New_final.
  destruct (rest_of_chain next c w) as [[[err|v] c'] w']; cbn [fst].
  - done.
  - by rewrite New_recover_outcome.
Qed.

(** The log only grows, by the calls of the middleware. *)
Lemma New_final_calls :
  calls (New_final config next c w).2 =
  calls (rest_of_chain next c w).2 ++
    match (rest_of_chain next c w).1.1 with
    | Panics v =>
        CallRecover (request_hub w) v
          :: flush_calls (New_config config) (request_hub w)
    | Returns err =>
        capture_calls (request_hub w) err (rest_of_chain next c w).1.2
          ++ flush_calls (New_config config) (request_hub w)
    end.
Proof.
  unfold New_final.
  destruct (rest_of_chain next c w) as [[[err|v] c'] w']; cbn [fst snd].
  - apply New_exit_calls.
  - apply New_recover_calls.
Qed.

Lemma run_exit_calls_eq :
  run_exit_calls (observe config next c w) =
    match run_result (observe config next c w) with
    | Panics v =>
        CallRecover (request_hub w) v
          :: flush_calls (New_config config) (request_hub w)
    | Returns err =>
        capture_calls (request_hub w) err
          (run_ctx_at_exit (observe config next c w))
          ++ flush_calls (New_config config) (request_hub w)
    end.
Proof.
  rewrite observe_eq. cbn [run_exit_calls run_result run_ctx_at_exit].
  rewrite New_final_calls. by rewrite drop_app_length.
Qed.

Lemma run_entry_calls_quiet :
  Forall (λ k, is_capture k = false ∧ is_flush k = false)
    (run_entry_calls (observe config next c w)).
Proof.
  rewrite observe_eq. cbn [run_entry_calls].
  destruct (New_entry_calls c w) as (l & Hl & Hq).
  rewrite Hl. by rewrite drop_app_length.
Qed.

(** What is sent after the rest of the chain has finished. *)
Lemma New_final_sent :
  sent (New_final config next c w).2 =
  match (rest_of_chain next c w).1.1 with
  | Panics v =>
      sent (deliver (request_hub w) (PRecovered v)
              (log (CallRecover (request_hub w) v) (rest_of_chain next c w).2)).2
  | Returns (Some e) =>
      if bool_decide (500 ≤ status_code e) then
        sent (deliver (request_hub w) (PException e)
                (log (CallCaptureException (request_hub w) e)
                   (rest_of_chain next c w).2)).2
      else sent (rest_of_chain next c w).2
  | Returns None => sent (rest_of_chain next c w).2
  end.
Proof.
  unfold New_final.
  destruct (rest_of_chain next c w) as [[[[e|]|v] c'] w']; cbn [fst snd].
  - case_bool_decide.
    + by apply New_exit_5xx.
    + apply New_exit_quiet. unfold capture_calls.
      by rewrite bool_decide_eq_false_2.
  - by apply New_exit_quiet.
  - unfold New_recover, Hub_Recover. destruct (deliver _ _ _) as [id w''].
    by destruct (Repanic _), (WaitForDelivery _).
Qed.

Lemma deliver_sent_app (h : HubPtr) (p : Payload) (k : SdkCall) (w0 : World) :
  ∃ l, sent (deliver h p (log k w0)).2 = sent w0 ++ l.
Proof.
  destruct (deliver_sent_cases h p (log k w0)) as [Hs|(ev & Hs & _)];
    rewrite Hs; cbn [sent log]; [exists []|exists [ev]]; by rewrite ?app_nil_r.
Qed.

(** The observation cuts the log, and the list of events, at the right
    places. *)
Lemma observe_sound :
  calls (New_entry c w).2 = calls w ++ run_entry_calls (observe config next c w) ∧
  calls (New config next c w).2 =
    calls (rest_of_chain next c w).2 ++ run_exit_calls (observe config next c w) ∧
  sent (New_entry c w).2 = sent w ∧
  sent (New config next c w).2 =
    sent (rest_of_chain next c w).2 ++ run_exit_sent (observe config next c w).
Proof.
  rewrite run_exit_calls_eq, New_eq, New_final_calls.
  rewrite observe_eq. cbn [run_entry_calls run_exit_sent run_result run_ctx_at_exit].
  destruct (New_entry_calls c w) as (l & Hl & _).
  rewrite Hl, drop_app_length.
  repeat split; [apply New_entry_sent|].
  rewrite New_final_sent.
  destruct ((rest_of_chain next c w).1.1) as [[e|]|v].
  - case_bool_decide.
    + destruct (deliver_sent_app (request_hub w) (PException e)
                  (CallCaptureException (request_hub w) e)
                  (rest_of_chain next c w).2) as [l' ->].
      by rewrite drop_app_length.
    + by rewrite drop_all, app_nil_r.
  - by rewrite drop_all, app_nil_r.
  - destruct (deliver_sent_app (request_hub w) (PRecovered v)
                (CallRecover (request_hub w) v)
                (rest_of_chain next c w).2) as [l' ->].
    by rewrite drop_app_length.
Qed.
End request.

Lemma run_outcome_New `{External} (config : list MiddlewareConfig) (next : Handler)
    (c : Ctx) (w : World) :
  run_outcome (observe config next c w) = (New config next c w).1.1.
Proof. rewrite New_eq. by rewrite observe_eq. Qed.

(** The status is read off the error value itself: a wrapped
    [*fiber.Error] counts as 500. *)
Lemma status_code_examples :
  status_code (FiberError 404 "Not Found") = 404 ∧
  status_code (FiberError 503 "Service Unavailable") = 503 ∧
  status_code (ErrorString "boom") = 500 ∧
  status_code (WrapError "lookup: Not Found" (FiberError 404 "Not Found")) = 500.
Proof. by repeat split. Qed.

Lemma capture_calls_below_500 (hub : HubPtr) (e : GoError) (c : Ctx) :
  status_code e < 500 → capture_calls hub (Some e) c = [].
Proof.
  intros Hlt. unfold capture_calls. rewrite bool_decide_eq_false_2; [done|lia].
Qed.

Lemma flush_calls_no_capture (cfg : MiddlewareConfig) (hub : HubPtr) :
  Forall (λ k, is_capture k = false) (flush_calls cfg hub).
Proof. unfold flush_calls. destruct (WaitForDelivery cfg); repeat constructor. Qed.

Lemma entry_calls_no_capture `{External} (config : list MiddlewareConfig)
    (next : Handler) (c : Ctx) (w : World) :
  Forall (λ k, is_capture k = false) (run_entry_calls (observe config next c w)).
Proof.
  eapply Forall_impl; [apply run_entry_calls_quiet|]. by intros k [? _].
Qed.

(** What the middleware sends after the rest of the chain returned
    without a 5xx error: nothing. *)
Lemma run_exit_sent_quiet `{External} (config : list MiddlewareConfig)
    (next : Handler) (c : Ctx) (w : World) (err : option GoError) :
  run_result (observe config next c w) = Returns err →
  capture_calls (request_hub w) err (run_ctx_at_exit (observe config next c w)) = [] →
  run_exit_sent (observe config next c w) = [].
Proof.
  rewrite observe_eq. cbn [run_result run_exit_sent run_ctx_at_exit].
  intros Hres Hq. rewrite New_final_sent, Hres.
  destruct err as [e|]; [|by rewrite drop_all].
  unfold capture_calls in Hq. case_bool_decide; [done|]. by rewrite drop_all.
Qed.

(** C7.  When the rest of the chain returns nil without panicking, the
    middleware returns nil, none of the SDK calls the middleware makes for
    the request is a capture (or the recovery path), and it sends no
    event. *)
Theorem New_no_error_returns_nil `{External} (config : list MiddlewareConfig)
    (next : Handler) (c : Ctx) (w : World) :
  run_result (observe config next c w) = Returns None →
  (New config next c w).1.1 = Returned None ∧
  Forall (λ k, is_capture k = false) (middleware_calls (observe config next c w)) ∧
  run_exit_sent (observe config next c w) = [].
Proof.
  intros Hres. split; [|split].
  - by rewrite <- run_outcome_New, run_outcome_eq, Hres.
  - unfold middleware_calls. apply Forall_app. split.
    + apply entry_calls_no_capture.
    + rewrite run_exit_calls_eq, Hres. cbn [capture_calls app].
      apply flush_calls_no_capture.
  - by apply (run_exit_sent_quiet config next c w None).
Qed.

Lemma New_no_error_returns_nil_witness :
  run_result (observe (H := sample_external) [wait_config] (next_returns None)
                sample_ctx sample_world) = Returns None ∧
  (New (H := sample_external) [wait_config] (next_returns None)
     sample_ctx sample_world).1.1 = Returned None.
Proof.
  split; [reflexivity|].
  apply (New_no_error_returns_nil (H := sample_external)). reflexivity.
Defined.

(** C3.  When the rest of the chain returns an error whose status is
    below 500, the middleware returns that same error, none of its SDK
    calls is a capture, and it sends no event. *)
Theorem New_below_500_not_captured `{External} (config : list MiddlewareConfig)
    (next : Handler) (c : Ctx) (w : World) (e : GoError) :
  run_result (observe config next c w) = Returns (Some e) →
  status_code e < 500 →
  (New config next c w).1.1 = Returned (Some e) ∧
  Forall (λ k, is_capture k = false) (middleware_calls (observe config next c w)) ∧
  run_exit_sent (observe config next c w) = [].
Proof.
  intros Hres Hlt. split; [|split].
  - by rewrite <- run_outcome_New, run_outcome_eq, Hres.
  - unfold middleware_calls. apply Forall_app. split.
    + apply entry_calls_no_capture.
    + rewrite run_exit_calls_eq, Hres, capture_calls_below_500 by done.
      apply flush_calls_no_capture.
  - apply (run_exit_sent_quiet config next c w (Some e)); [done|].
    by apply capture_calls_below_500.
Qed.

Lemma New_below_500_not_captured_witness :
  status_code (FiberError 404 "Not Found") = 404 ∧
  (New (H := sample_external) [] (next_returns (Some (FiberError 404 "Not Found")))
     sample_ctx sample_world).1.1 = Returned (Some (FiberError 404 "Not Found")).
Proof.
  split; [reflexivity|].
  apply (New_below_500_not_captured (H := sample_external) []
           (next_returns (Some (FiberError 404 "Not Found")))
           sample_ctx sample_world (FiberError 404 "Not Found")).
  - reflexivity.
  - vm_compute. reflexivity.
Defined.

(** The hub the middleware works on is the one it stored in the request. *)
Lemma GetHubFromContext_New_entry `{External} (c : Ctx) (w : World) :
  GetHubFromContext (New_entry c w).1.2 = request_hub w.
Proof.
  rewrite New_entry_ctx. unfold GetHubFromContext, Locals, Locals_set; simpl.
  by rewrite lookup_insert_eq.
Qed.

(** C2.  When the rest of the chain panics with [v], the middleware
    makes, on the hub of the request, the call [Recover(v)], followed by
    one [Flush] with the configured timeout when [WaitForDelivery] is set
    and by nothing else; then, with [Repanic] unset, it returns nil, and
    with [Repanic] set it panics again with [v].  [Repanic] is unset in
    the default configuration. *)
Theorem New_panic_recovered `{External} (config : list MiddlewareConfig)
    (next : Handler) (c : Ctx) (w : World) (v : PanicValue) :
  run_result (observe config next c w) = Panics v →
  run_exit_calls (observe config next c w) =
    CallRecover (GetHubFromContext (New_entry c w).1.2) v
      :: (if WaitForDelivery (New_config config)
          then [CallFlush (request_hub w) (Timeout (New_config config))]
          else []) ∧
  (New config next c w).1.1 =
    (if Repanic (New_config config) then Panicked v else Returned None) ∧
  Repanic (New_config []) = false.
Proof.
  intros Hres. split; [|split].
  - by rewrite run_exit_calls_eq, Hres, GetHubFromContext_New_entry.
  - by rewrite <- run_outcome_New, run_outcome_eq, Hres.
  - done.
Qed.

Lemma New_panic_recovered_witness :
  (New (H := sample_external) [] (next_panics (PanicString "index out of range"))
     sample_ctx sample_world).1.1 = Returned None ∧
  (New (H := sample_external) [repanic_config]
     (next_panics (PanicString "index out of range"))
     sample_ctx sample_world).1.1 = Panicked (PanicString "index out of range").
Proof.
  split.
  - apply (New_panic_recovered (H := sample_external) []
             (next_panics (PanicString "index out of range"))
             sample_ctx sample_world (PanicString "index out of range")).
    reflexivity.
  - apply (New_panic_recovered (H := sample_external) [repanic_config]
             (next_panics (PanicString "index out of range"))
             sample_ctx sample_world (PanicString "index out of range")).
    reflexivity.
Defined.

(** X12.  The event the recovery path sends, when a client with the
    hook of [Init] is bound to the hub of the request: exactly one, the
    panic value with the scope of the request as the rest of the chain
    left it. *)
Lemma New_panic_event `{External} (config : list MiddlewareConfig)
    (next : Handler) (c : Ctx) (w : World) (v : PanicValue) (o : ClientOptions) :
  run_result (observe config next c w) = Panics v →
  hub_client (hub_at (rest_of_chain next c w).2 (request_hub w)) = Some o →
  opt_BeforeSend o = BeforeSend →
  run_exit_sent (observe config next c w) =
    [mkEvent (PRecovered v) (run_scope_at_exit (observe config next c w))].
Proof.
  rewrite observe_eq. cbn [run_result run_exit_sent run_scope_at_exit].
  intros Hres Hc Hb. rewrite New_final_sent, Hres.
  rewrite (deliver_client _ _ _ o) by done. cbn [sent log].
  by rewrite drop_app_length.
Qed.



Lemma error_details_status (c : Ctx) (e : GoError) (code : Z) :
  error_details c e code !! "status" = Some (VInt code).
Proof. unfold error_details. by simplify_map_eq. Qed.

(** X26.  A 5xx error, in general: the middleware returns the same error; its
    calls after the rest of the chain are one [CaptureException] on the
    hub of the request, then [SetContext "error_details"] with the same
    status, then the flush if configured; the scope of the hub ends with
    that context; and the event that is sent (with the hook of [Init])
    carries the scope as it was when the rest of the chain finished, that
    is, before "error_details" was set. *)
Lemma New_5xx_captured_once `{External} (config : list MiddlewareConfig)
    (next : Handler) (c : Ctx) (w : World) (e : GoError) :
  run_result (observe config next c w) = Returns (Some e) →
  500 ≤ status_code e →
  let r := observe config next c w in
  (New config next c w).1.1 = Returned (Some e) ∧
  filter (λ k, is_capture k = true) (middleware_calls r) =
    [CallCaptureException (request_hub w) e] ∧
  run_exit_calls r =
    [CallCaptureException (request_hub w) e;
     CallSetContext (request_hub w) "error_details"
       (error_details (run_ctx_at_exit r) e (status_code e))]
    ++ flush_calls (New_config config) (request_hub w) ∧
  contexts (run_scope_final r) !! "error_details" =
    Some (error_details (run_ctx_at_exit r) e (status_code e)) ∧
  (∀ o, hub_client (hub_at (rest_of_chain next c w).2 (request_hub w)) = Some o →
        opt_BeforeSend o = BeforeSend →
        run_exit_sent r = [mkEvent (PException e) (run_scope_at_exit r)]).
Proof.
  intros Hres Hcode r.
  assert (run_exit_calls r =
    [CallCaptureException (request_hub w) e;
     CallSetContext (request_hub w) "error_details"
       (error_details (run_ctx_at_exit r) e (status_code e))]
    ++ flush_calls (New_config config) (request_hub w)) as Hexit.
  { unfold r. rewrite run_exit_calls_eq, Hres. unfold capture_calls.
    by rewrite bool_decide_eq_true_2. }
  split; [|split; [|split; [|split]]].
  - by rewrite <- run_outcome_New, run_outcome_eq, Hres.
  - unfold middleware_calls. rewrite filter_app, Hexit.
    assert (filter (λ k, is_capture k = true) (run_entry_calls r) = []) as ->.
    { pose proof (entry_calls_no_capture config next c w) as Hq. fold r in Hq.
      induction Hq as [|k l Hk _ IH]; [done|].
      rewrite filter_cons_False; [done|]. by rewrite Hk. }
    unfold flush_calls. by destruct (WaitForDelivery _).
  - done.
  - unfold r in *. rewrite observe_eq in Hres |- *.
    cbn [run_result run_scope_final run_ctx_at_exit] in *.
    unfold New_final. destruct (rest_of_chain next c w) as [[res c2] w2].
    cbn [fst snd] in *. subst res.
    destruct (New_exit_5xx (New_config config) (request_hub w) e c2 w2 Hcode)
      as [_ ->].
    cbn [contexts]. by rewrite lookup_insert_eq.
  - intros o Hc Hb. unfold r in *. rewrite observe_eq in Hres |- *.
    cbn [run_result run_exit_sent run_scope_at_exit] in *.
    rewrite New_final_sent, Hres, bool_decide_eq_true_2 by done.
    rewrite (deliver_client _ _ _ o) by done. cbn [sent log].
    by rewrite drop_app_length.
Qed.

(** C1, at a plain error on a fresh request after [Init].  The
    middleware returns the error, captures once on the hub of the request
    and sets "error_details" with status 500 on the scope; the one event
    that was sent has no "error_details" context, because it was made
    before the context was set. *)
Theorem New_5xx_event_lacks_error_details :
  let e := ErrorString "boom" in
  let r := observe (H := sample_external) [] (next_returns (Some e))
             sample_ctx sample_world in
  status_code e = 500 ∧
  run_outcome r = Returned (Some e) ∧
  filter (λ k, is_capture k = true) (middleware_calls r) =
    [CallCaptureException (run_hub r) e] ∧
  (contexts (run_scope_final r) !! "error_details") ≫= (λ m, m !! "status") =
    Some (VInt 500) ∧
  ∃ ev, run_exit_sent r = [ev] ∧
        ev_payload ev = PException e ∧
        contexts (ev_scope ev) !! "error_details" = None ∧
        is_Some (contexts (ev_scope ev) !! "request").
Proof.
  cbv zeta. split; [reflexivity|]. split; [reflexivity|].
  split; [vm_compute; reflexivity|]. split; [vm_compute; reflexivity|].
  eexists. split; [vm_compute; reflexivity|].
  split; [reflexivity|]. split; [vm_compute; reflexivity|].
  vm_compute. eauto.
Qed.

(** ** The "request" context and its headers *)

Lemma request_context_headers (c : Ctx) :
  request_context c !! "headers" = Some (VHeaders (extractHeaders (Headers c))).
Proof. unfold request_context. by simplify_map_eq. Qed.

(** X5.  A header whose name is not denylisted and is visited with one
    value only is in the map with that value. *)
Lemma extractHeaders_verbatim (hdrs : list (string * string)) (k v : string) :
  (k, v) ∈ hdrs → denylisted k = false →
  (∀ v', (k, v') ∈ hdrs → v' = v) →
  extractHeaders hdrs !! k = Some v.
Proof.
  intros Hin Hk Huniq. rewrite extractHeaders_lookup, Hk.
  by apply last_value_unique.
Qed.

(** The names are compared as they are: a name that differs from a
    denylisted one in letter case is copied. *)
Lemma extractHeaders_case_sensitive :
  extractHeaders [("authorization", "Bearer secret")] !! "authorization"
  = Some "Bearer secret".
Proof. vm_compute. reflexivity. Qed.

(** C4, as the code has it.  After the entry phase the hub of the
    request has a "request" context whose "headers" entry is a map that
    has no entry for Authorization, Cookie and X-Api-Key, and that maps
    every other name to the value of the last header of that name in
    visiting order, unchanged (and has no entry for a name the request
    does not bear). *)
Theorem New_request_headers_filtered `{External} (c : Ctx) (w : World) :
  ∃ hm : gmap string string,
    (contexts (scope_at (New_entry c w).2 (request_hub w)) !! "request")
      ≫= (λ m, m !! "headers") = Some (VHeaders hm) ∧
    hm = extractHeaders (Headers c) ∧
    ∀ k, hm !! k = if denylisted k then None else last_value k (Headers c).
Proof.
  exists (extractHeaders (Headers c)). split; [|split; [done|]].
  - rewrite New_entry_contexts, lookup_insert_eq. simpl.
    apply request_context_headers.
  - intros k. apply extractHeaders_lookup.
Qed.

(** C4 fails as stated: of two headers with the same name, neither
    denylisted, only the value of the second is in the map. *)
Lemma repeated_header_not_verbatim :
  let hm := extractHeaders (Headers sample_ctx) in
  ("Accept", "text/html") ∈ Headers sample_ctx ∧
  denylisted "Accept" = false ∧
  request_context sample_ctx !! "headers" = Some (VHeaders hm) ∧
  hm !! "Accept" = Some "application/json" ∧
  hm !! "Accept" ≠ Some "text/html".
Proof.
  cbv zeta. split; [|split; [reflexivity|split; [apply request_context_headers|]]].
  - unfold sample_ctx; cbn [Headers]. do 5 right. left.
  - assert (extractHeaders (Headers sample_ctx) !! "Accept"
            = Some "application/json") as -> by (vm_compute; reflexivity).
    split; [done|]. intros [=].
Qed.

(** ** [Init] *)



(** X25.  With a DSN, [Init] makes the one SDK call.  When the SDK
    rejects the options, [Init] returns an error that wraps the SDK's, its
    message prefixed with "failed to initialize Sentry: ", and no hub
    changes; when the SDK accepts them, [Init] returns nil and the global
    hub has the client made from those options. *)
Lemma Init_nonempty_DSN `{External} (cfg : Config) (w : World) :
  DSN cfg ≠ "" →
  calls (Init cfg w).2 = calls w ++ [CallInit (Init_options cfg)] ∧
  match NewClient_error (Init_options cfg) with
  | Some err =>
      (Init cfg w).1 =
        Some (WrapError ("failed to initialize Sentry: " +:+ Error err) err) ∧
      hubs (Init cfg w).2 = hubs w
  | None =>
      (Init cfg w).1 = None ∧
      hub_client (hub_at (Init cfg w).2 CurrentHub) = Some (Init_options cfg)
  end.
Proof.
  intros Hdsn. unfold Init. rewrite bool_decide_eq_false_2 by done.
  unfold sentry_Init.
  destruct (NewClient_error (Init_options cfg)) as [err|]; cbn [fst snd];
    repeat split; try reflexivity.
  by rewrite hub_at_set_hub_eq.
Qed.

(** ** Resolving the hub of a request *)


(** Three request contexts: a hub stored, a string stored, nothing
    stored. *)
Lemma GetHubFromContext_examples :
  GetHubFromContext (Locals_set "sentry_hub" (LHub 7%nat) sample_ctx) = 7%nat ∧
  GetHubFromContext (Locals_set "sentry_hub" (LString "x") sample_ctx) = CurrentHub ∧
  GetHubFromContext sample_ctx = CurrentHub.
Proof. repeat split; vm_compute; reflexivity. Qed.

(** ** The global [CaptureMessage] *)

(** C10.  [CaptureMessage(message, level)] first captures the message on
    the global hub and then sets the level on the global scope.  The scope
    keeps that level after the call.  With a client bound (hook of
    [Init]), the event of the message carries the scope as it was before
    the call, so not the new level, and an exception captured afterwards
    carries the new level. *)
Theorem CaptureMessage_level_set_after_capture (message : string) (lvl : Level)
    (w : World) :
  let w' := (CaptureMessage message lvl w).2 in
  calls w' =
    calls w ++ [CallCaptureMessage CurrentHub message; CallSetLevel CurrentHub lvl] ∧
  level (scope_at w' CurrentHub) = lvl ∧
  (∀ o, hub_client (hub_at w CurrentHub) = Some o →
        opt_BeforeSend o = BeforeSend →
        sent w' = sent w ++ [mkEvent (PMessage message) (scope_at w CurrentHub)] ∧
        ∀ err, ∃ ev,
          sent (CaptureException err w').2 = sent w' ++ [ev] ∧
          ev_payload ev = PException err ∧ level (ev_scope ev) = lvl).
Proof.
  cbv zeta. unfold CaptureMessage, Hub_CaptureMessage.
  pose proof (deliver_calls CurrentHub (PMessage message)
                (log (CallCaptureMessage CurrentHub message) w)) as Hcalls.
  pose proof (hub_at_deliver CurrentHub CurrentHub (PMessage message)
                (log (CallCaptureMessage CurrentHub message) w)) as Hhub.
  pose proof (deliver_client CurrentHub (PMessage message)
                (log (CallCaptureMessage CurrentHub message) w)) as Hsent.
  destruct (deliver _ _ _) as [event w1]. cbn [fst snd] in *.
  split; [|split].
  - scope_ops. rewrite Hcalls. cbn [calls log]. by rewrite <- app_assoc.
  - by scope_ops.
  - intros o Hc Hb. split.
    + scope_ops. by apply (Hsent o).
    + intros err.
      exists (mkEvent (PException err)
                (scope_at (Scope_SetLevel CurrentHub lvl w1) CurrentHub)).
      split; [|split].
      * unfold CaptureException, Hub_CaptureException.
        rewrite (deliver_client _ _ _ o); [done| |done].
        rewrite hub_at_log. scope_ops. by rewrite Hhub.
      * done.
      * cbn [ev_scope]. by scope_ops.
Qed.

Lemma CaptureMessage_level_set_after_capture_witness :
  let w' := (CaptureMessage "worker restarted" "warning" sample_world).2 in
  level (scope_at sample_world CurrentHub) = "" ∧
  sent w' = [mkEvent (PMessage "worker restarted") (scope_at sample_world CurrentHub)] ∧
  level (scope_at w' CurrentHub) = "warning".
Proof.
  destruct (CaptureMessage_level_set_after_capture "worker restarted" "warning"
              sample_world) as (_ & Hlevel & Hevent).
  cbv zeta. split; [reflexivity|]. split; [|exact Hlevel].
  exact (proj1 (Hevent (Init_options sample_config) eq_refl eq_refl)).
Defined.

(** ** Requests in flight do not share a scope *)

Section isolation.
Context `{External}.

Lemma step_Enters (s : System) (r : RequestId) (c : Ctx) :
  step s (Enters r c) =
  mkSystem (New_entry c (sys_world s)).2
    (<[r := (New_entry c (sys_world s)).1.2]> (sys_ctx s)).
Proof. unfold step. by destruct (New_entry c (sys_world s)) as [[? ?] ?]. Qed.

(** The scope of the new hub depends on the request and on the scope
    of the global hub only. *)
Lemma New_entry_same_scope (c : Ctx) (w1 w2 : World) :
  scope_at w1 CurrentHub = scope_at w2 CurrentHub →
  scope_at (New_entry c w1).2 (request_hub w1) =
  scope_at (New_entry c w2).2 (request_hub w2).
Proof.
  intros Hg.
  assert (∀ w, ∃ w', Hub_Clone CurrentHub w = (next_hub w, w') ∧
                     scope_at w' (next_hub w) = scope_at w CurrentHub) as Hclone.
  { intros w. eexists. split; [reflexivity|].
    exact (f_equal hub_scope (Hub_Clone_new CurrentHub w)). }
  unfold New_entry, request_hub.
  destruct (Hclone w1) as (w1' & -> & E1), (Hclone w2) as (w2' & -> & E2).
  destruct (Locals c "user_id"); case_bool_decide;
    cbn [fst snd]; scope_ops; by rewrite E1, E2, Hg.
Qed.

Lemma scope_at_frame (w w' : World) (h : HubPtr) :
  hub_at w' h = hub_at w h → scope_at w' h = scope_at w h.
Proof. unfold scope_at. by intros ->. Qed.

Lemma well_formed_start (w : World) :
  (0 < next_hub w)%nat → well_formed (scope_at w CurrentHub) (start w).
Proof.
  intros Hpos. by repeat split.
Qed.

Lemma well_formed_step (g : Scope) (s : System) (a : Action) :
  well_formed g s → well_formed g (step s a).
Proof.
  intros (Hpos & Hg & Hhubs & Hdist). destruct a as [r c|r key val].
  - rewrite step_Enters. unfold well_formed. cbn [sys_world sys_ctx].
    rewrite New_entry_next_hub.
    assert (∀ r' c', <[r := (New_entry c (sys_world s)).1.2]> (sys_ctx s) !! r'
                     = Some c' →
              (r' = r ∧ GetHubFromContext c' = next_hub (sys_world s)) ∨
              (r' ≠ r ∧ sys_ctx s !! r' = Some c')) as Hcases.
    { intros r' c'. destruct (decide (r = r')) as [->|Hne].
      - rewrite lookup_insert_eq. intros [= <-]. left. split; [done|].
        apply GetHubFromContext_New_entry.
      - rewrite lookup_insert_ne by done. intros ?. by right. }
    split; [lia|]. split; [|split].
    + rewrite <- Hg. apply scope_at_frame, New_entry_frame.
      unfold request_hub, CurrentHub. lia.
    + intros r' c' Hin. destruct (Hcases r' c' Hin) as [[_ ->]|[_ Hold]]; [lia|].
      specialize (Hhubs r' c' Hold). lia.
    + intros r1 r2 c1 c2 Hne Hin1 Hin2.
      destruct (Hcases r1 c1 Hin1) as [[-> ->]|[_ Hold1]],
               (Hcases r2 c2 Hin2) as [[-> ->]|[_ Hold2]].
      * done.
      * specialize (Hhubs r2 c2 Hold2). lia.
      * specialize (Hhubs r1 c1 Hold1). lia.
      * by apply (Hdist r1 r2).
  - unfold step. destruct (sys_ctx s !! r) as [c|] eqn:Hr; [|done].
    unfold well_formed, SetTagFromContext. cbn [sys_world sys_ctx].
    scope_ops. split; [done|]. split; [|done].
    rewrite <- Hg. apply scope_at_frame.
    apply (op_frame _ _ _ _ (Scope_SetTag_op _ _ _)).
    specialize (Hhubs r c Hr). unfold CurrentHub. lia.
Qed.

Lemma well_formed_run (g : Scope) (sched : list Action) (s : System) :
  well_formed g s → well_formed g (run_schedule s sched).
Proof.
  revert s. induction sched as [|a sched IH]; intros s Hwf; [done|].
  apply IH. by apply well_formed_step.
Qed.

(** An action of another request leaves the scope of [r] as it was. *)
Lemma step_other (g : Scope) (s : System) (a : Action) (r : RequestId) :
  well_formed g s → of_request r a = false →
  request_scope (step s a) r = request_scope s r.
Proof.
  intros (Hpos & Hg & Hhubs & Hdist) Hother.
  destruct a as [r' c|r' key val]; cbn [of_request] in Hother;
    apply bool_decide_eq_false in Hother.
  - rewrite step_Enters. unfold request_scope. cbn [sys_world sys_ctx].
    rewrite lookup_insert_ne by done.
    destruct (sys_ctx s !! r) as [cr|] eqn:Hr; [|done]. cbn [mbind option_bind].
    f_equal. apply scope_at_frame, New_entry_frame.
    specialize (Hhubs r cr Hr). unfold request_hub. lia.
  - unfold step. destruct (sys_ctx s !! r') as [c'|] eqn:Hr'; [|done].
    unfold request_scope. cbn [sys_world sys_ctx].
    destruct (sys_ctx s !! r) as [cr|] eqn:Hr; [|done]. cbn [mbind option_bind].
    f_equal. apply scope_at_frame. unfold SetTagFromContext.
    apply (op_frame _ _ _ _ (Scope_SetTag_op _ _ _)).
    by apply (Hdist r' r).
Qed.

(** An action of [r] itself does to the scope of [r] what it does when
    [r] is the only request. *)
Lemma step_own (g : Scope) (s s' : System) (a : Action) (r : RequestId) :
  well_formed g s → well_formed g s' → of_request r a = true →
  request_scope s r = request_scope s' r →
  request_scope (step s a) r = request_scope (step s' a) r.
Proof.
  intros (_ & Hg & _ & _) (_ & Hg' & _ & _) Hown Hsim.
  destruct a as [r' c|r' key val]; cbn [of_request] in Hown;
    apply bool_decide_eq_true in Hown; subst r'.
  - rewrite !step_Enters. unfold request_scope. cbn [sys_world sys_ctx].
    rewrite !lookup_insert_eq. cbn [mbind option_bind].
    rewrite !GetHubFromContext_New_entry.
    f_equal. apply New_entry_same_scope. by rewrite Hg, Hg'.
  - unfold step, request_scope in *.
    destruct (sys_ctx s !! r) as [c|] eqn:Hr,
             (sys_ctx s' !! r) as [c'|] eqn:Hr'; cbn in Hsim; try done.
    + cbn [sys_world sys_ctx]. rewrite Hr, Hr'. cbn [mbind option_bind].
      unfold SetTagFromContext. scope_ops.
      injection Hsim as ->. done.
    + by rewrite Hr, Hr'.
Qed.

(** The scope of a request after any schedule is the scope it has
    after its own actions alone. *)
Lemma run_schedule_own (g : Scope) (sched : list Action) (s s' : System)
    (r : RequestId) :
  well_formed g s → well_formed g s' →
  request_scope s r = request_scope s' r →
  request_scope (run_schedule s sched) r =
  request_scope (run_schedule s' (own_actions r sched)) r.
Proof.
  revert s s'. induction sched as [|a sched IH]; intros s s' Hwf Hwf' Hsim;
    [done|].
  unfold own_actions. cbn [run_schedule foldl].
  destruct (of_request r a) eqn:Hown.
  - rewrite filter_cons_True by done. cbn [foldl].
    apply IH; [by apply well_formed_step..|]. by apply (step_own g).
  - rewrite filter_cons_False by (by rewrite Hown). 
    apply IH; [by apply well_formed_step|done|].
    by rewrite (step_other g).
Qed.
End isolation.

Lemma run_schedule_app `{External} (s : System) (sched1 sched2 : list Action) :
  run_schedule s (sched1 ++ sched2) = run_schedule (run_schedule s sched1) sched2.
Proof. apply foldl_app. Qed.

(** Actions of other requests, however many, leave the scope of [r] as
    it was. *)
Lemma run_schedule_others `{External} (g : Scope) (sched : list Action)
    (s : System) (r : RequestId) :
  well_formed g s → Forall (λ a, of_request r a = false) sched →
  request_scope (run_schedule s sched) r = request_scope s r.
Proof.
  revert s. induction sched as [|a sched IH]; intros s Hwf Hall; [done|].
  apply Forall_cons in Hall as [Ha Hall]. cbn [run_schedule foldl].
  etrans; [apply IH; [by apply well_formed_step|done]|].
  by apply (step_other g).
Qed.

(** C8.  Take any schedule of the actions of any number of requests,
    started in a process whose global hub exists, and two requests in it.
    At the end (so at every moment, the schedule being any): the two
    requests have two different hubs, neither of them the global hub; the
    scope of the first is what its own actions alone make it, as if no
    other request were running; and a tag the first has set with
    [SetTagFromContext] still has the value the first gave it after any
    number of actions of other requests. *)
Theorem concurrent_requests_isolated `{External} (w0 : World)
    (sched : list Action) (r1 r2 : RequestId) :
  (0 < next_hub w0)%nat →
  r1 ≠ r2 →
  (∀ c1 c2,
     sys_ctx (run_schedule (start w0) sched) !! r1 = Some c1 →
     sys_ctx (run_schedule (start w0) sched) !! r2 = Some c2 →
     GetHubFromContext c1 ≠ GetHubFromContext c2 ∧
     GetHubFromContext c1 ≠ CurrentHub ∧ GetHubFromContext c2 ≠ CurrentHub) ∧
  request_scope (run_schedule (start w0) sched) r1 =
    request_scope (run_schedule (start w0) (own_actions r1 sched)) r1 ∧
  (∀ before after key v1,
     sched = before ++ SetsTag r1 key v1 :: after →
     is_Some (sys_ctx (run_schedule (start w0) before) !! r1) →
     Forall (λ a, of_request r1 a = false) after →
     (tags <$> request_scope (run_schedule (start w0) sched) r1)
       ≫= (λ t, t !! key) = Some v1).
Proof.
  intros Hpos Hne.
  pose proof (well_formed_start w0 Hpos) as Hstart.
  split; [|split].
  - intros c1 c2 H1 H2.
    destruct (well_formed_run _ sched _ Hstart) as (_ & _ & Hhubs & Hdist).
    split; [by apply (Hdist r1 r2)|].
    pose proof (Hhubs r1 c1 H1). pose proof (Hhubs r2 c2 H2).
    unfold CurrentHub. lia.
  - by apply (run_schedule_own (scope_at w0 CurrentHub)).
  - intros before after key v1 -> [c Hc] Hothers.
    rewrite run_schedule_app. cbn [run_schedule foldl].
    pose proof (well_formed_run _ before _ Hstart) as Hwf.
    fold (run_schedule (start w0) before) in *.
    fold (run_schedule (step (run_schedule (start w0) before) (SetsTag r1 key v1))
            after).
    rewrite (run_schedule_others (scope_at w0 CurrentHub))
      by (by try apply well_formed_step).
    unfold step, request_scope. rewrite Hc. cbn [sys_world sys_ctx].
    rewrite Hc. cbn [mbind option_bind fmap option_fmap option_map].
    unfold SetTagFromContext. scope_ops. cbn [tags].
    by rewrite lookup_insert_eq.
Qed.

Lemma concurrent_requests_isolated_witness :
  request_scope
    (run_schedule (H := sample_external) (start sample_world) two_requests) 1%nat =
  request_scope
    (run_schedule (H := sample_external) (start sample_world)
       (own_actions 1%nat two_requests)) 1%nat.
Proof.
  apply (concurrent_requests_isolated (H := sample_external) sample_world
           two_requests 1%nat 2%nat).
  - vm_compute. lia.
  - lia.
Defined.

(** The two requests of [two_requests] each read their own colour. *)
Lemma two_requests_tags :
  let s := run_schedule (H := sample_external) (start sample_world) two_requests in
  (tags <$> request_scope s 1%nat) ≫= (λ t, t !! "color") = Some "red" ∧
  (tags <$> request_scope s 2%nat) ≫= (λ t, t !! "color") = Some "blue" ∧
  tags (scope_at (sys_world s) CurrentHub) !! "color" = None.
Proof. repeat split; vm_compute; reflexivity. Qed.

(** * Further properties of the package *)

(** ** [extractHeaders] *)

Lemma last_value_app (k : string) (h1 h2 : list (string * string)) :
  last_value k (h1 ++ h2) =
  match last_value k h2 with Some v => Some v | None => last_value k h1 end.
Proof.
  induction h1 as [|[k' v'] rest IH]; simpl.
  - by destruct (last_value k h2).
  - rewrite IH. by destruct (last_value k h2).
Qed.

(** X1.  The headers map of a request whose headers are [h1] followed
    by [h2] is the map of [h2] completed by the map of [h1]: later
    headers win over earlier ones of the same name. *)
Theorem extractHeaders_app (h1 h2 : list (string * string)) :
  extractHeaders (h1 ++ h2) = extractHeaders h2 ∪ extractHeaders h1.
Proof.
  apply map_eq. intros k.
  rewrite lookup_union, !extractHeaders_lookup, last_value_app.
  destruct (denylisted k); [done|].
  by destruct (last_value k h2), (last_value k h1).
Qed.

(** X2.  Every entry of the headers map is a header of the request,
    name and value unchanged, whose name is not denylisted; and a name is
    a key of the map exactly when it is not denylisted and the request
    bears a header of that name. *)
Theorem extractHeaders_entries (hdrs : list (string * string)) :
  (∀ k v, extractHeaders hdrs !! k = Some v →
          (k, v) ∈ hdrs ∧ denylisted k = false) ∧
  (∀ k, is_Some (extractHeaders hdrs !! k) ↔
        denylisted k = false ∧ ∃ v, (k, v) ∈ hdrs).
Proof.
  split.
  - intros k v. rewrite extractHeaders_lookup.
    destruct (denylisted k); [done|]. intros Hl. split; [|done].
    by apply last_value_elem.
  - intros k. rewrite extractHeaders_lookup. destruct (denylisted k).
    + split; [by intros [? ?]|by intros [? _]].
    + split.
      * intros [v Hv]. split; [done|]. exists v. by apply last_value_elem.
      * intros [_ [v Hin]]. destruct (last_value k hdrs) as [v'|] eqn:E; [done|].
        exfalso. by apply (proj1 (last_value_None k hdrs) E v).
Qed.

(** X3.  The headers map is empty exactly when every header of the
    request has a denylisted name (in particular when there is no header
    at all). *)
Theorem extractHeaders_empty_iff (hdrs : list (string * string)) :
  extractHeaders hdrs = ∅ ↔ Forall (λ kv, denylisted kv.1 = true) hdrs.
Proof.
  rewrite map_empty, Forall_forall. split.
  - intros Hnone [k v] Hin. cbn. destruct (denylisted k) eqn:Hk; [done|].
    specialize (Hnone k). rewrite extractHeaders_lookup, Hk in Hnone.
    exfalso. by apply (proj1 (last_value_None k hdrs) Hnone v).
  - intros Hall k. rewrite extractHeaders_lookup.
    destruct (denylisted k) eqn:Hk; [done|].
    apply last_value_None. intros v Hin. specialize (Hall _ Hin). cbn in Hall.
    congruence.
Qed.

Lemma distinct_names_one_value (hdrs : list (string * string)) (k v v' : string) :
  NoDup (header_names hdrs) → (k, v) ∈ hdrs → (k, v') ∈ hdrs → v = v'.
Proof.
  unfold header_names. induction hdrs as [|[k0 v0] rest IH]; cbn.
  - intros _ Hin. by apply elem_of_nil in Hin.
  - intros Hnd H1 H2. apply NoDup_cons in Hnd as [Hnotin Hnd].
    apply elem_of_cons in H1 as [E1|H1];
      apply elem_of_cons in H2 as [E2|H2]; simplify_eq.
    + done.
    + exfalso. apply Hnotin. apply list_elem_of_fmap. by exists (k0, v').
    + exfalso. apply Hnotin. apply list_elem_of_fmap. by exists (k0, v).
    + by apply IH.
Qed.

(** X4.  When no header name is repeated, the headers map does not
    depend on the order in which the headers are visited. *)
Theorem extractHeaders_order_irrelevant (h1 h2 : list (string * string)) :
  NoDup (header_names h1) → h1 ≡ₚ h2 → extractHeaders h1 = extractHeaders h2.
Proof.
  intros Hnd Hperm.
  assert (NoDup (header_names h2)) as Hnd2.
  { unfold header_names in *. by rewrite <- Hperm. }
  assert (∀ h k, NoDup (header_names h) →
            ∀ v, last_value k h = Some v ↔ (k, v) ∈ h) as Hchar.
  { intros h k Hh v. split; [apply last_value_elem|].
    intros Hin. apply last_value_unique; [done|].
    intros v' Hin'. by apply (distinct_names_one_value h k). }
  apply map_eq. intros k. rewrite !extractHeaders_lookup.
  destruct (denylisted k); [done|].
  apply option_eq. intros v. rewrite !Hchar by done. by rewrite Hperm.
Qed.

Lemma extractHeaders_order_irrelevant_witness :
  extractHeaders [("Host", "shop.example"); ("Accept", "text/html")] =
  extractHeaders [("Accept", "text/html"); ("Host", "shop.example")].
Proof.
  apply extractHeaders_order_irrelevant.
  - unfold header_names; cbn. by apply (bool_decide_unpack _).
  - apply Permutation_swap.
Defined.

Lemma extractHeaders_verbatim_witness :
  extractHeaders (Headers sample_ctx) !! "Host" = Some "shop.example".
Proof.
  apply extractHeaders_verbatim.
  - unfold sample_ctx; cbn [Headers]. left.
  - reflexivity.
  - intros v' Hin. unfold sample_ctx in Hin; cbn [Headers] in Hin.
    rewrite !elem_of_cons, elem_of_nil in Hin. intuition congruence.
Defined.

(** ** [Init], [Close] and [RecoverWithSentry] *)

Lemma Init_nonempty_DSN_witness :
  calls (Init (H := sample_external) sample_config initial_world).2 =
  calls initial_world ++ [CallInit (Init_options sample_config)].
Proof.
  apply (Init_nonempty_DSN (H := sample_external) sample_config initial_world).
  unfold sample_config; cbn [DSN]. intros [=].
Defined.

(** X6.  Whenever [Init] reaches the SDK, the options it passes have the
    DSN, release, sample rate, flags and server name of the configuration;
    the environment is the configured one, or "development" when none is
    configured, so it is never empty; and the [BeforeSend] hook hands
    every event back unchanged. *)
Theorem Init_passes_options `{External} (cfg : Config) (w : World) :
  DSN cfg ≠ "" →
  ∃ o, calls (Init cfg w).2 = calls w ++ [CallInit o] ∧
       opt_Dsn o = DSN cfg ∧ opt_Release o = Release cfg ∧
       opt_TracesSampleRate o = TracesSampleRate cfg ∧
       opt_Debug o = Debug cfg ∧ opt_AttachStacktrace o = AttachStacktrace cfg ∧
       opt_ServerName o = ServerName cfg ∧
       opt_Environment o ≠ "" ∧
       (Environment cfg = "" → opt_Environment o = "development") ∧
       (Environment cfg ≠ "" → opt_Environment o = Environment cfg) ∧
       ∀ ev, opt_BeforeSend o ev = Some ev.
Proof.
  intros Hdsn. exists (Init_options cfg). split.
  - unfold Init. rewrite bool_decide_eq_false_2 by done. unfold sentry_Init.
    by destruct (NewClient_error (Init_options cfg)).
  - unfold Init_options; cbn. repeat split; try done;
      by case_bool_decide.
Qed.

Lemma Init_passes_options_witness :
  ∃ o, calls (Init (H := sample_external) sample_config initial_world).2 = [CallInit o] ∧
       opt_Environment o = "development".
Proof.
  destruct (Init_passes_options (H := sample_external) sample_config initial_world)
    as (o & Hcalls & _ & _ & _ & _ & _ & _ & _ & Henv & _).
  - unfold sample_config; cbn [DSN]. intros [=].
  - exists o. split; [exact Hcalls|]. by apply Henv.
Defined.

(** X7.  Whatever the configuration and whatever the SDK answers,
    [Init] changes no scope, sends no event and makes no hub; every hub
    other than the global one is left as it was, so a hub cloned before
    [Init] still has the client, or the lack of one, it was cloned
    with. *)
Theorem Init_keeps_scopes `{External} (cfg : Config) (w : World) :
  (∀ h, scope_at (Init cfg w).2 h = scope_at w h) ∧
  (∀ h, h ≠ CurrentHub → hub_at (Init cfg w).2 h = hub_at w h) ∧
  sent (Init cfg w).2 = sent w ∧
  next_hub (Init cfg w).2 = next_hub w.
Proof.
  unfold Init. case_bool_decide; [done|]. unfold sentry_Init.
  destruct (NewClient_error (Init_options cfg)); cbn [fst snd]; [done|].
  repeat split; try done.
  - intros h. destruct (decide (h = CurrentHub)) as [->|Hne].
    + unfold scope_at at 1. by rewrite hub_at_set_hub_eq.
    + unfold scope_at at 1. by rewrite hub_at_set_hub_ne.
  - intros h Hne. by rewrite hub_at_set_hub_ne.
Qed.

(** X8.  After an [Init] that returned nil, [CaptureException] returns
    an event id and sends exactly one event: the error together with the
    scope of the global hub, nothing removed and nothing added. *)
Theorem Init_then_CaptureException `{External} (cfg : Config) (w : World)
    (err : GoError) :
  (Init cfg w).1 = None →
  (CaptureException err (Init cfg w).2).1 = Some (length (sent w)) ∧
  sent (CaptureException err (Init cfg w).2).2 =
    sent w ++ [mkEvent (PException err) (scope_at w CurrentHub)].
Proof.
  unfold Init. case_bool_decide; [done|]. unfold sentry_Init.
  destruct (NewClient_error (Init_options cfg)); cbn [fst snd]; [done|].
  intros _. unfold CaptureException, Hub_CaptureException.
  set (w1 := set_hub CurrentHub _ _).
  assert (hub_at (log (CallCaptureException CurrentHub err) w1) CurrentHub =
          mkHub (Some (Init_options cfg)) (scope_at w CurrentHub)) as Hhub.
  { rewrite hub_at_log. unfold w1. by rewrite hub_at_set_hub_eq. }
  unfold deliver, scope_at. rewrite Hhub. by cbn.
Qed.

Lemma Init_then_CaptureException_witness :
  (CaptureException (ErrorString "boom")
     (Init (H := sample_external) sample_config initial_world).2).1 = Some 0%nat.
Proof.
  apply (Init_then_CaptureException (H := sample_external) sample_config
           initial_world (ErrorString "boom")).
  reflexivity.
Defined.

(** X9.  [RecoverWithSentry] does nothing when no panic is in flight;
    with a panic in flight it calls the recovery path and then [Flush]
    with two seconds, both on the global hub, and ends normally.  [Close]
    is one [Flush] with two seconds on the global hub.  Neither changes a
    hub. *)
Theorem RecoverWithSentry_calls (inflight : option PanicValue) (w : World) :
  calls (RecoverWithSentry inflight w) =
    calls w ++
      match inflight with
      | Some v => [CallRecover CurrentHub v; CallFlush CurrentHub 2000000000]
      | None => []
      end ∧
  (∀ h, hub_at (RecoverWithSentry inflight w) h = hub_at w h) ∧
  calls (Close w) = calls w ++ [CallFlush CurrentHub 2000000000] ∧
  (∀ h, hub_at (Close w) h = hub_at w h) ∧
  sent (Close w) = sent w.
Proof.
  split; [|split; [|done]].
  - destruct inflight as [v|]; [|by rewrite app_nil_r].
    unfold RecoverWithSentry, Hub_Recover.
    pose proof (deliver_calls CurrentHub (PRecovered v)
                  (log (CallRecover CurrentHub v) w)) as Hc.
    destruct (deliver _ _ _) as [id w']. cbn [snd] in Hc.
    unfold Hub_Flush; cbn [calls log]. rewrite Hc; cbn [calls log].
    by rewrite <- app_assoc.
  - intros h. destruct inflight as [v|]; [|done].
    unfold RecoverWithSentry, Hub_Recover.
    pose proof (hub_at_deliver CurrentHub h (PRecovered v)
                  (log (CallRecover CurrentHub v) w)) as Hh.
    by destruct (deliver _ _ _) as [id w'].
Qed.

(** ** The hub the middleware makes for a request *)


Lemma New_exit_frame (cfg : MiddlewareConfig) (hub h : HubPtr)
    (err : option GoError) (c : Ctx) (w : World) :
  h ≠ hub → hub_at (New_exit cfg hub err c w).2 h = hub_at w h.
Proof.
  intros Hne. unfold New_exit. cbn [snd].
  assert (∀ w0, hub_at (if WaitForDelivery cfg
                        then Hub_Flush hub (Timeout cfg) w0 else w0) h
                = hub_at w0 h) as Hflush.
  { intros w0. by destruct (WaitForDelivery cfg). }
  rewrite Hflush. destruct err as [e|]; [|done]. case_bool_decide; [|done].
  pose proof (hub_at_deliver hub h (PException e)
                (log (CallCaptureException hub e) w)) as Hh.
  unfold Hub_CaptureException. destruct (deliver _ _ _) as [id w'].
  cbn [snd] in Hh. scope_ops. by rewrite Hh.
Qed.

(** X11.  The middleware writes to no hub but the one it makes for the
    request: its entry phase leaves every hub that existed as it was,
    and from the end of the rest of the chain to the end of the
    middleware every other hub, the global one included, stays as the
    rest of the chain left it. *)
Theorem New_writes_request_hub_only `{External} (config : list MiddlewareConfig)
    (next : Handler) (c : Ctx) (w : World) (h : HubPtr) :
  h ≠ request_hub w →
  hub_at (New_entry c w).2 h = hub_at w h ∧
  hub_at (New config next c w).2 h = hub_at (rest_of_chain next c w).2 h.
Proof.
  intros Hne. split; [by apply New_entry_frame|].
  rewrite New_eq. unfold New_final.
  destruct (rest_of_chain next c w) as [[[err|v] c2] w2]; cbn [snd].
  - by apply New_exit_frame.
  - apply New_recover_hub_at.
Qed.

Lemma New_writes_request_hub_only_witness :
  hub_at (New (H := sample_external) [wait_config]
            (next_returns (Some (ErrorString "boom"))) sample_ctx sample_world).2
    CurrentHub
  = hub_at sample_world CurrentHub.
Proof.
  destruct (New_writes_request_hub_only (H := sample_external) [wait_config]
              (next_returns (Some (ErrorString "boom"))) sample_ctx sample_world
              CurrentHub) as [Hentry Hexit].
  - vm_compute. lia.
  - rewrite Hexit. exact Hentry.
Defined.

Lemma New_panic_event_witness :
  run_exit_sent
    (observe (H := sample_external) [] (next_panics (PanicString "nil map"))
       sample_ctx sample_world) =
  [mkEvent (PRecovered (PanicString "nil map"))
     (run_scope_at_exit
        (observe (H := sample_external) [] (next_panics (PanicString "nil map"))
           sample_ctx sample_world))].
Proof.
  apply (New_panic_event (H := sample_external) [] (next_panics (PanicString "nil map"))
           sample_ctx sample_world (PanicString "nil map")
           (Init_options sample_config)).
  - reflexivity.
  - vm_compute. reflexivity.
  - reflexivity.
Defined.

Lemma entry_calls_filter_capture `{External} (config : list MiddlewareConfig)
    (next : Handler) (c : Ctx) (w : World) :
  filter (λ k, is_capture k = true) (run_entry_calls (observe config next c w)) = [].
Proof.
  pose proof (entry_calls_no_capture config next c w) as Hq.
  induction Hq as [|k l Hk _ IH]; [done|].
  rewrite filter_cons_False; [done|]. by rewrite Hk.
Qed.

(** X13.  An error that is not itself a [*fiber.Error] counts as 500,
    whatever it wraps: the middleware captures it, once, sets
    "error_details" with status 500, and returns it unchanged.  So an
    error that wraps a 404 [*fiber.Error] is captured. *)
Theorem New_untyped_error_captured `{External} (config : list MiddlewareConfig)
    (next : Handler) (c : Ctx) (w : World) (e : GoError) :
  run_result (observe config next c w) = Returns (Some e) →
  (∀ code message, e ≠ FiberError code message) →
  (New config next c w).1.1 = Returned (Some e) ∧
  filter (λ k, is_capture k = true) (middleware_calls (observe config next c w)) =
    [CallCaptureException (request_hub w) e] ∧
  In (CallSetContext (request_hub w) "error_details"
        (error_details (run_ctx_at_exit (observe config next c w)) e 500))
     (run_exit_calls (observe config next c w)).
Proof.
  intros Hres Hnot.
  assert (status_code e = 500) as Hcode.
  { destruct e as [code message| |]; [|done..]. by destruct (Hnot code message). }
  split; [|split].
  - by rewrite <- run_outcome_New, run_outcome_eq, Hres.
  - unfold middleware_calls.
    rewrite filter_app, entry_calls_filter_capture, run_exit_calls_eq, Hres.
    unfold capture_calls, flush_calls. rewrite Hcode.
    rewrite bool_decide_eq_true_2 by done. by destruct (WaitForDelivery _).
  - rewrite run_exit_calls_eq, Hres. unfold capture_calls. rewrite Hcode.
    rewrite bool_decide_eq_true_2 by done. cbn. by right; left.
Qed.

Lemma New_untyped_error_captured_witness :
  filter (λ k, is_capture k = true)
    (middleware_calls
       (observe (H := sample_external) [] next_wrapped_404 sample_ctx sample_world)) =
  [CallCaptureException (request_hub sample_world)
     (WrapError "load order: Not Found" (FiberError 404 "Not Found"))].
Proof.
  apply (New_untyped_error_captured (H := sample_external) [] next_wrapped_404
           sample_ctx sample_world
           (WrapError "load order: Not Found" (FiberError 404 "Not Found"))).
  - reflexivity.
  - intros code message [=].
Defined.

Lemma New_5xx_captured_once_witness :
  let r := observe (H := sample_external) [wait_config]
             (next_tags_then_fails (FiberError 503 "Service Unavailable"))
             sample_ctx sample_world in
  run_exit_calls r =
    [CallCaptureException (request_hub sample_world)
       (FiberError 503 "Service Unavailable");
     CallSetContext (request_hub sample_world) "error_details"
       (error_details (run_ctx_at_exit r) (FiberError 503 "Service Unavailable") 503);
     CallFlush (request_hub sample_world) (5 * Second)] ∧
  run_exit_sent r =
    [mkEvent (PException (FiberError 503 "Service Unavailable")) (run_scope_at_exit r)] ∧
  tags (run_scope_at_exit r) !! "step" = Some "checkout".
Proof.
  pose proof (New_5xx_captured_once (H := sample_external) [wait_config]
                (next_tags_then_fails (FiberError 503 "Service Unavailable"))
                sample_ctx sample_world (FiberError 503 "Service Unavailable")
                eq_refl) as Hrun.
  cbv zeta in *. destruct Hrun as (_ & _ & Hcalls & _ & Hsent).
  - vm_compute. discriminate.
  - split; [exact Hcalls|]. split.
    + apply (Hsent (Init_options sample_config)); [vm_compute|]; reflexivity.
    + vm_compute. reflexivity.
Defined.

(** X14.  Let a client with the hook of [Init] be bound to the global
    hub when the request arrives, let the rest of the chain leave the hub
    of the request alone, and let it return a 5xx error.  Then the
    middleware sends exactly one event: the error, with the contexts of
    the global hub plus the "request" context of this request, in whose
    headers no denylisted name has an entry. *)
Theorem New_5xx_event_content `{External} (config : list MiddlewareConfig)
    (next : Handler) (c : Ctx) (w : World) (e : GoError) (o : ClientOptions) :
  hub_client (hub_at w CurrentHub) = Some o →
  opt_BeforeSend o = BeforeSend →
  hub_at (rest_of_chain next c w).2 (request_hub w) =
    hub_at (New_entry c w).2 (request_hub w) →
  run_result (observe config next c w) = Returns (Some e) →
  500 ≤ status_code e →
  ∃ ev hm,
    run_exit_sent (observe config next c w) = [ev] ∧
    ev_payload ev = PException e ∧
    contexts (ev_scope ev) =
      <["request" := request_context c]> (contexts (scope_at w CurrentHub)) ∧
    request_context c !! "headers" = Some (VHeaders hm) ∧
    hm !! "Authorization" = None ∧ hm !! "Cookie" = None ∧
    hm !! "X-Api-Key" = None.
Proof.
  intros Hclient Hhook Halone Hres Hcode.
  exists (mkEvent (PException e) (scope_at (New_entry c w).2 (request_hub w))),
         (extractHeaders (Headers c)).
  split; [|split; [done|split; [apply New_entry_contexts|]]].
  - rewrite observe_eq in Hres |- *. cbn [run_result run_exit_sent] in *.
    rewrite New_final_sent, Hres, bool_decide_eq_true_2 by done.
    rewrite (deliver_client _ _ _ o); [|rewrite hub_at_log, Halone|done].
    + cbn [sent log]. rewrite drop_app_length. unfold scope_at.
      by rewrite hub_at_log, Halone.
    + by rewrite New_entry_client.
  - split; [apply request_context_headers|].
    by rewrite !extractHeaders_lookup.
Qed.

Lemma New_5xx_event_content_witness :
  ∃ ev, run_exit_sent
          (observe (H := sample_external) []
             (next_returns (Some (FiberError 500 "Internal Server Error")))
             sample_ctx sample_world) = [ev] ∧
        ev_payload ev = PException (FiberError 500 "Internal Server Error").
Proof.
  destruct (New_5xx_event_content (H := sample_external) []
              (next_returns (Some (FiberError 500 "Internal Server Error")))
              sample_ctx sample_world (FiberError 500 "Internal Server Error")
              (Init_options sample_config))
    as (ev & hm & Hsent & Hpayload & _).
  - vm_compute. reflexivity.
  - reflexivity.
  - reflexivity.
  - reflexivity.
  - vm_compute. discriminate.
  - by exists ev.
Defined.

(** ** The functions that take the hub from the request, continued *)

(** X15.  [CaptureMessageFromContext] sets the level before it
    captures: with a client (hook of [Init]) bound to the hub the request
    resolves to, it returns an event id and sends exactly one event, the
    message with the scope of that hub at the given level; the hub keeps
    the level afterwards. *)
Theorem CaptureMessageFromContext_level_in_event (c : Ctx) (message : string)
    (lvl : Level) (w : World) (o : ClientOptions) :
  hub_client (hub_at w (GetHubFromContext c)) = Some o →
  opt_BeforeSend o = BeforeSend →
  (CaptureMessageFromContext c message lvl w).1 = Some (length (sent w)) ∧
  sent (CaptureMessageFromContext c message lvl w).2 =
    sent w ++
      [mkEvent (PMessage message)
         (mkScope (tags (scope_at w (GetHubFromContext c)))
            (contexts (scope_at w (GetHubFromContext c)))
            (user (scope_at w (GetHubFromContext c))) lvl
            (breadcrumbs (scope_at w (GetHubFromContext c))))] ∧
  level (scope_at (CaptureMessageFromContext c message lvl w).2
           (GetHubFromContext c)) = lvl.
Proof.
  intros Hclient Hhook.
  unfold CaptureMessageFromContext, Hub_CaptureMessage. cbv zeta.
  set (h := GetHubFromContext c) in *.
  set (w1 := log (CallCaptureMessage h message) (Scope_SetLevel h lvl w)).
  assert (hub_client (hub_at w1 h) = Some o) as Hc1.
  { unfold w1. rewrite hub_at_log. by scope_ops. }
  assert (scope_at w1 h =
          mkScope (tags (scope_at w h)) (contexts (scope_at w h))
            (user (scope_at w h)) lvl (breadcrumbs (scope_at w h))) as Hs1.
  { unfold w1, scope_at at 1. rewrite hub_at_log.
    change (hub_scope (hub_at ?x ?y)) with (scope_at x y). by scope_ops. }
  split; [|split].
  - unfold deliver. rewrite Hc1, Hhook. cbn. unfold w1. cbn [sent log].
    by scope_ops.
  - rewrite (deliver_client _ _ _ o) by done. rewrite Hs1. unfold w1.
    cbn [sent log]. by scope_ops.
  - unfold scope_at. rewrite hub_at_deliver.
    change (hub_scope (hub_at ?x ?y)) with (scope_at x y). by rewrite Hs1.
Qed.

Lemma CaptureMessageFromContext_level_in_event_witness :
  level (scope_at (CaptureMessageFromContext sample_ctx "cache miss" "warning"
                     sample_world).2 (GetHubFromContext sample_ctx)) = "warning".
Proof.
  apply (CaptureMessageFromContext_level_in_event sample_ctx "cache miss" "warning"
           sample_world (Init_options sample_config)).
  - vm_compute. reflexivity.
  - reflexivity.
Defined.

(** X16.  On a request context that holds no hub under "sentry_hub"
    (nothing stored there, or a value of another type), the functions
    that take the hub from the request do exactly what their global
    namesakes do. *)
Theorem FromContext_without_hub_is_global (c : Ctx) (w : World) :
  (∀ h, Locals c "sentry_hub" ≠ Some (LHub h)) →
  (∀ key val, SetTagFromContext c key val w = SetTag key val w) ∧
  (∀ userID email username,
     SetUserFromContext c userID email username w = SetUser userID email username w) ∧
  (∀ key data, SetContextFromContext c key data w = SetContext key data w) ∧
  (∀ message category data,
     AddBreadcrumbFromContext c message category data w =
     AddBreadcrumb message category data w) ∧
  (∀ err, CaptureExceptionFromContext c err w = CaptureException err w).
Proof.
  intros Hnohub.
  assert (GetHubFromContext c = CurrentHub) as Hglobal.
  { unfold GetHubFromContext.
    destruct (Locals c "sentry_hub") as [[h| |]|]; try done.
    by destruct (Hnohub h). }
  unfold SetTagFromContext, SetUserFromContext, SetContextFromContext,
    AddBreadcrumbFromContext, CaptureExceptionFromContext.
  by rewrite Hglobal.
Qed.

Lemma FromContext_without_hub_is_global_witness :
  SetTagFromContext sample_ctx "job" "nightly" sample_world =
  SetTag "job" "nightly" sample_world.
Proof.
  apply (FromContext_without_hub_is_global sample_ctx sample_world).
  intros h. vm_compute. discriminate.
Defined.

(** X17.  [SetTagFromContext] writes one tag of one scope: on the hub
    the request resolves to the tag reads back as given, every other tag
    and the contexts, user, level and breadcrumbs are as before; the hub
    keeps its client, every other hub is as it was, and nothing is
    sent. *)
Theorem SetTagFromContext_lookup (c : Ctx) (key val : string) (w : World) :
  tags (scope_at (SetTagFromContext c key val w) (GetHubFromContext c)) !! key
    = Some val ∧
  (∀ k, k ≠ key →
     tags (scope_at (SetTagFromContext c key val w) (GetHubFromContext c)) !! k =
     tags (scope_at w (GetHubFromContext c)) !! k) ∧
  contexts (scope_at (SetTagFromContext c key val w) (GetHubFromContext c)) =
    contexts (scope_at w (GetHubFromContext c)) ∧
  user (scope_at (SetTagFromContext c key val w) (GetHubFromContext c)) =
    user (scope_at w (GetHubFromContext c)) ∧
  level (scope_at (SetTagFromContext c key val w) (GetHubFromContext c)) =
    level (scope_at w (GetHubFromContext c)) ∧
  breadcrumbs (scope_at (SetTagFromContext c key val w) (GetHubFromContext c)) =
    breadcrumbs (scope_at w (GetHubFromContext c)) ∧
  hub_client (hub_at (SetTagFromContext c key val w) (GetHubFromContext c)) =
    hub_client (hub_at w (GetHubFromContext c)) ∧
  (∀ h, h ≠ GetHubFromContext c →
     hub_at (SetTagFromContext c key val w) h = hub_at w h) ∧
  sent (SetTagFromContext c key val w) = sent w.
Proof.
  unfold SetTagFromContext. cbv zeta. scope_ops. cbn [tags contexts user level
    breadcrumbs].
  repeat split; try done.
  - by rewrite lookup_insert_eq.
  - intros k Hk. by rewrite lookup_insert_ne.
  - intros h Hne. by apply (op_frame _ _ _ _ (Scope_SetTag_op _ _ _)).
Qed.

(** X18.  [SetContextFromContext] replaces the whole context stored
    under the key: afterwards the key reads back as exactly the given map
    (entries of an earlier context of that name are gone, not merged),
    the contexts under other keys and the tags are as before, and no
    other hub changes. *)
Theorem SetContextFromContext_replaces (c : Ctx) (key : string)
    (data : gmap string value) (w : World) :
  contexts (scope_at (SetContextFromContext c key data w) (GetHubFromContext c))
    !! key = Some data ∧
  (∀ k, k ≠ key →
     contexts (scope_at (SetContextFromContext c key data w) (GetHubFromContext c))
       !! k = contexts (scope_at w (GetHubFromContext c)) !! k) ∧
  tags (scope_at (SetContextFromContext c key data w) (GetHubFromContext c)) =
    tags (scope_at w (GetHubFromContext c)) ∧
  (∀ h, h ≠ GetHubFromContext c →
     hub_at (SetContextFromContext c key data w) h = hub_at w h).
Proof.
  unfold SetContextFromContext. cbv zeta. scope_ops. cbn [tags contexts].
  repeat split; try done.
  - by rewrite lookup_insert_eq.
  - intros k Hk. by rewrite lookup_insert_ne.
  - intros h Hne. by apply (op_frame _ _ _ _ (Scope_SetContext_op _ _ _)).
Qed.

(** X19.  Setting a tag twice leaves the scope as setting it the second
    time alone does, and tags of different keys can be set in either
    order. *)
Theorem SetTagFromContext_compose (c : Ctx) (w : World) :
  (∀ key v1 v2,
     scope_at (SetTagFromContext c key v2 (SetTagFromContext c key v1 w))
       (GetHubFromContext c) =
     scope_at (SetTagFromContext c key v2 w) (GetHubFromContext c)) ∧
  (∀ k1 k2 v1 v2, k1 ≠ k2 →
     scope_at (SetTagFromContext c k1 v1 (SetTagFromContext c k2 v2 w))
       (GetHubFromContext c) =
     scope_at (SetTagFromContext c k2 v2 (SetTagFromContext c k1 v1 w))
       (GetHubFromContext c)).
Proof.
  unfold SetTagFromContext. cbv zeta. split.
  - intros key v1 v2. scope_ops. cbn [tags contexts user level breadcrumbs].
    by rewrite insert_insert_eq.
  - intros k1 k2 v1 v2 Hne. scope_ops. cbn [tags contexts user level breadcrumbs].
    by rewrite insert_insert_ne.
Qed.



(** ** [WithScope] *)


(** ** The middleware as a whole *)


(** X23.  After the rest of the chain has finished, the middleware
    sends at most one event for the request, and none when the hub of the
    request has no client. *)
Theorem New_sends_at_most_one_event `{External} (config : list MiddlewareConfig)
    (next : Handler) (c : Ctx) (w : World) :
  (length (run_exit_sent (observe config next c w)) ≤ 1)%nat ∧
  (hub_client (hub_at (rest_of_chain next c w).2 (request_hub w)) = None →
   run_exit_sent (observe config next c w) = []).
Proof.
  rewrite observe_eq. cbn [run_exit_sent]. rewrite New_final_sent.
  assert (∀ p k,
    let l := drop (length (sent (rest_of_chain next c w).2))
               (sent (deliver (request_hub w) p (log k (rest_of_chain next c w).2)).2)
    in (length l ≤ 1)%nat ∧
       (hub_client (hub_at (rest_of_chain next c w).2 (request_hub w)) = None →
        l = [])) as Hdeliver.
  { intros p k. cbv zeta.
    destruct (deliver_sent_cases (request_hub w) p (log k (rest_of_chain next c w).2))
      as [Hs|(ev & Hs & o & Hc & _)]; rewrite Hs; cbn [sent log].
    - rewrite drop_all. split; [cbn; lia|done].
    - rewrite drop_app_length. split; [cbn; lia|].
      rewrite hub_at_log in Hc. congruence. }
  destruct ((rest_of_chain next c w).1.1) as [[e|]|v].
  - case_bool_decide; [apply Hdeliver|]. rewrite drop_all. split; [cbn; lia|done].
  - rewrite drop_all. split; [cbn; lia|done].
  - apply Hdeliver.
Qed.

Lemma New_entry_tags_inherited `{External} (c : Ctx) (w : World) (k : string) :
  k ≠ "path" → k ≠ "method" → k ≠ "tenant_id" →
  tags (scope_at (New_entry c w).2 (request_hub w)) !! k =
  tags (scope_at w CurrentHub) !! k.
Proof.
  intros Hpath Hmethod Htenant.
  assert (∃ w', Hub_Clone CurrentHub w = (next_hub w, w') ∧
                scope_at w' (next_hub w) = scope_at w CurrentHub)
    as (w' & Hclone & Hscope).
  { eexists. split; [reflexivity|].
    exact (f_equal hub_scope (Hub_Clone_new CurrentHub w)). }
  unfold New_entry, request_hub. rewrite Hclone.
  destruct (Locals c "user_id"); case_bool_decide;
    cbn [fst snd]; scope_ops; rewrite Hscope; cbn [tags]; by simplify_map_eq.
Qed.

(** X24.  A tag set with the global [SetTag] before a request arrives
    is on the hub of that request (the names "path", "method" and
    "tenant_id" apart); a tag set with the global [SetTag] once the
    request is past the entry phase is not: the hub of the request keeps
    what it was cloned with. *)
Theorem global_tag_and_request `{External} (c : Ctx) (w : World) (key val : string) :
  key ≠ "path" → key ≠ "method" → key ≠ "tenant_id" →
  (0 < next_hub w)%nat →
  tags (scope_at (New_entry c (SetTag key val w)).2 (request_hub (SetTag key val w)))
    !! key = Some val ∧
  tags (scope_at (SetTag key val (New_entry c w).2) (request_hub w)) !! key =
    tags (scope_at w CurrentHub) !! key.
Proof.
  intros Hpath Hmethod Htenant Hpos. split.
  - rewrite New_entry_tags_inherited by done. unfold SetTag. scope_ops.
    cbn [tags]. by rewrite lookup_insert_eq.
  - unfold SetTag, scope_at at 1.
    rewrite (op_frame _ _ _ _ (Scope_SetTag_op _ _ _))
      by (unfold request_hub, CurrentHub; lia).
    change (hub_scope (hub_at ?x ?y)) with (scope_at x y).
    by apply New_entry_tags_inherited.
Qed.

Lemma global_tag_and_request_witness :
  tags (scope_at (New_entry (H := sample_external) sample_ctx
                    (SetTag "region" "eu" sample_world)).2
          (request_hub (SetTag "region" "eu" sample_world))) !! "region" = Some "eu".
Proof.
  apply (global_tag_and_request (H := sample_external) sample_ctx sample_world
           "region" "eu"); try (intros [=]).
  vm_compute. lia.
Defined.
